(** * Chirp backend: follow graph, likes, retweets, cascading delete, feeds

    A shallow embedding of the Express/Mongoose route handlers

      - the tweets routes, mounted at /api/tweets (timeline, create, view,
        delete, like, retweet, comments)
      - routes/users.js   (profile view, follow toggle)
      - routes/search.js  (tweet search)
      - models/Tweet.js   (the Tweet schema and its validators)

    The Tweet collection is a list of documents in natural order; the User
    collection, which the writing handlers address by [_id], is a finite
    map from [_id] to the document.  A handler is a function from
    the database (and the request) to the new database and the response.
    [populate] only resolves references for display and is left out. *)

From Stdlib Require Import Ascii String.
From stdpp Require Import gmap list sorting strings.

#[local] Set Warnings "-clear-no-such-hyp".

Local Open Scope N_scope.

(** ** Identifiers, documents, database *)

Definition ObjectId := N.

(** Modelled from the spec: models/User.js, the User schema, is missing.
    The spec's User has a profile and two sets of user ids, [following] and
    [followers]; the handlers update them as arrays, with [$addToSet] and
    [$pull], and look users up by [username]. *)
Record User := mkUser {
  u_username : string;
  u_name : string;
  following : list ObjectId;
  followers : list ObjectId
}.

(** models/Tweet.js.  [timestamps: true] gives [createdAt] and [updatedAt].
    [pinned], which no handler reads or writes, and the version key are
    left out. *)
Record Tweet := mkTweet {
  _id : ObjectId;
  user : ObjectId;
  content : string;
  image : option string;
  likes : list ObjectId;
  retweets : list ObjectId;
  retweetData : option ObjectId;
  replyTo : option ObjectId;
  createdAt : N;
  updatedAt : N
}.

Record Db := mkDb {
  users : gmap ObjectId User;
  tweets : list Tweet
}.

Global Instance Tweet_eq_dec : EqDecision Tweet.
Proof. solve_decision. Defined.

Global Instance User_eq_dec : EqDecision User.
Proof. solve_decision. Defined.

(** ** Responses *)

(** [res.json(body)] answers 200; [res.status(c).json({ message })] answers
    [c] with a message. *)
Inductive Response (A : Type) : Type :=
| Json (body : A)
| Fail (status : N) (message : string).
Arguments Json {A} body.
Arguments Fail {A} status message.

Definition server_error {A} : Response A := Fail 500 "Server error".

(** ** MongoDB update operators and queries *)

Module Mongo.

(** [$addToSet]: append unless already present. *)
Definition addToSet (x : ObjectId) (l : list ObjectId) : list ObjectId :=
  if decide (x ∈ l) then l else l ++ [x].

(** [$pull]: remove every occurrence. *)
Definition pull (x : ObjectId) (l : list ObjectId) : list ObjectId :=
  filter (λ y, y ≠ x) l.

(** [Tweet.findById]. *)
Definition findById (i : ObjectId) (ts : list Tweet) : option Tweet :=
  snd <$> list_find (λ t, _id t = i) ts.

(** [Tweet.findByIdAndUpdate(i, upd)]: the first document with that id. *)
Fixpoint updateById (i : ObjectId) (f : Tweet → Tweet) (ts : list Tweet)
    : list Tweet :=
  match ts with
  | [] => []
  | t :: ts' => if decide (_id t = i) then f t :: ts'
                else t :: updateById i f ts'
  end.

(** [Tweet.deleteOne(filter)]: the first matching document. *)
Fixpoint deleteOne (P : Tweet → Prop) `{∀ t, Decision (P t)}
    (ts : list Tweet) : list Tweet :=
  match ts with
  | [] => []
  | t :: ts' => if decide (P t) then ts' else t :: deleteOne P ts'
  end.

(** [Tweet.deleteMany(filter)]. *)
Definition deleteMany (P : Tweet → Prop) `{∀ t, Decision (P t)}
    (ts : list Tweet) : list Tweet :=
  filter (λ t, ¬ P t) ts.

(** [.sort({ createdAt: -1 })]: newest first. *)
Definition newer (t1 t2 : Tweet) : Prop := createdAt t2 ≤ createdAt t1.

Global Instance newer_dec : RelDecision newer.
Proof. intros t1 t2. unfold newer. apply _. Defined.

Definition sortNewestFirst (ts : list Tweet) : list Tweet :=
  merge_sort newer ts.

(** An ObjectId is a value of 12 bytes, here the number below 2^96 that
    the bytes spell.  [toString()] (and the [id] getter of a document)
    writes it as 24 hexadecimal digits in lower case. *)
Definition hexDigit (d : N) : ascii :=
  match d with
  | 0 => "0" | 1 => "1" | 2 => "2" | 3 => "3" | 4 => "4" | 5 => "5"
  | 6 => "6" | 7 => "7" | 8 => "8" | 9 => "9" | 10 => "a" | 11 => "b"
  | 12 => "c" | 13 => "d" | 14 => "e" | _ => "f"
  end%char.

Fixpoint hexDigits (n : nat) (x : N) (acc : string) : string :=
  match n with
  | O => acc
  | S n' => hexDigits n' (x / 16) (String (hexDigit (x mod 16)) acc)
  end.

Definition idString (i : ObjectId) : string := hexDigits 24 i EmptyString.

(** Casting a string to an ObjectId, as Mongoose does with a route
    parameter used in a query or an update: 24 hexadecimal digits, in
    either case, give the id; any other string is a CastError ([None]).
    (Older versions of the bson library also read a string of 12
    characters as the 12 bytes of an id; here, as in the current library,
    only the 24-digit form is an id.) *)
Definition hexValue (c : ascii) : option N :=
  let n := N_of_ascii c in
  if (48 <=? n) && (n <=? 57) then Some (n - 48)
  else if (97 <=? n) && (n <=? 102) then Some (n - 87)
  else if (65 <=? n) && (n <=? 70) then Some (n - 55)
  else None.

Fixpoint parseHex (s : string) (acc : N) : option N :=
  match s with
  | EmptyString => Some acc
  | String c s' =>
      match hexValue c with
      | Some d => parseHex s' (16 * acc + d)
      | None => None
      end
  end.

Definition castId (s : string) : option ObjectId :=
  if decide (String.length s = 24%nat) then parseHex s 0 else None.

End Mongo.


(** ** JavaScript strings *)

Module Js.

(** A JavaScript string is a sequence of UTF-16 code units.  The strings
    of this development are the ones whose code units are all below 256
    (Latin-1 text), with one character of [string] per code unit: the
    character with code 233 is U+00E9, the one with code 160 is U+00A0.
    [String.length] is then the [length] of the JavaScript string. *)

(** The white space that [trim] removes: among the code units below 256
    these are TAB, LF, VT, FF, CR, SPACE and NO-BREAK SPACE. *)
Definition isWhiteSpace (c : ascii) : bool :=
  Ascii.is_space c || bool_decide (c = "160"%char).

(** [String.prototype.trim]. *)
Fixpoint trimStart (s : string) : string :=
  match s with
  | String c s' => if isWhiteSpace c then trimStart s' else s
  | EmptyString => EmptyString
  end.

Definition trim (s : string) : string :=
  String.rev (trimStart (String.rev (trimStart s))).

(** [s.startsWith(p)], used by [replace] below. *)
Fixpoint startsWith (p s : string) : bool :=
  match p, s with
  | EmptyString, _ => true
  | String a p', String b s' => bool_decide (a = b) && startsWith p' s'
  | String _ _, EmptyString => false
  end.

Fixpoint dropChars (n : nat) (s : string) : string :=
  match n, s with
  | O, _ => s
  | S n', String _ s' => dropChars n' s'
  | S _, EmptyString => EmptyString
  end.

(** [s.replace(pat, '')] with a string pattern: the first occurrence only. *)
Fixpoint removeFirst (pat s : string) : string :=
  if startsWith pat s then dropChars (String.length pat) s
  else match s with
       | String c s' => String c (removeFirst pat s')
       | EmptyString => EmptyString
       end.

(** A string is truthy when it is present and not empty. *)
Definition truthy (o : option string) : option string :=
  match o with
  | Some EmptyString | None => None
  | Some s => Some s
  end.

(** [parseInt(x) || d] on the parsed number ([None] is NaN): NaN and 0 are
    falsy. *)
Definition orDefault (x : option Z) (d : Z) : Z :=
  match x with
  | None | Some Z0 => d
  | Some v => v
  end.

End Js.

(** ** Regular expressions: the fragment of [$regex] that is modelled

    The search handler hands the query to MongoDB as a regular expression
    with option [i].  The model covers patterns made of ordinary
    characters and the wildcard [.]; a pattern with any other
    metacharacter is outside the fragment ([parse] gives [None]).  Case is
    folded on the ASCII letters. *)

Module Regex.

Inductive atom : Type :=
| Lit (c : ascii)
| AnyChar.

Definition metachars : list ascii := list_ascii_of_string "\^$.|?*+()[]{}".

Fixpoint parse (q : string) : option (list atom) :=
  match q with
  | EmptyString => Some []
  | String c q' =>
      if decide (c = "."%char) then (AnyChar ::.) <$> parse q'
      else if decide (c ∈ metachars) then None
      else (Lit c ::.) <$> parse q'
  end.

Definition lower (c : ascii) : ascii :=
  let n := N_of_ascii c in
  if (65 <=? n) && (n <=? 90) then ascii_of_N (n + 32) else c.

Definition atomMatches (a : atom) (c : ascii) : bool :=
  match a with
  | Lit x => bool_decide (lower x = lower c)
  | AnyChar => negb (bool_decide (c = "010"%char))
  end.

Fixpoint matchHere (p : list atom) (s : string) : bool :=
  match p, s with
  | [], _ => true
  | a :: p', String c s' => atomMatches a c && matchHere p' s'
  | _ :: _, EmptyString => false
  end.

(** Unanchored: the pattern may match at any position. *)
Fixpoint search (p : list atom) (s : string) : bool :=
  matchHere p s ||
  match s with
  | String _ s' => search p s'
  | EmptyString => false
  end.

End Regex.

(** ** The Tweet schema (models/Tweet.js)

    [content] is declared [{ type: String, required: true, trim: true,
    maxlength: 280 }].  The [trim] setter runs when the document is built;
    on [save] Mongoose runs the validators: [required] rejects a missing
    value and, for a String path, the empty string; [maxlength] rejects more
    than 280 characters.  [user] is [required] as well. *)

Module TweetSchema.

(** The object given to [new Tweet(...)]. *)
Record Data := mkData {
  d_user : option ObjectId;
  d_content : option string;
  d_image : option string;
  d_retweetData : option ObjectId;
  d_replyTo : option ObjectId
}.

Definition requiredString (v : option string) : option string :=
  match v with
  | Some s => if decide (s = EmptyString) then None else Some s
  | None => None
  end.

Definition maxlength (n : nat) (s : string) : option string :=
  if decide (String.length s ≤ n)%nat then Some s else None.

(** [None]: a ValidationError. *)
Definition validate (d : Data) : option (ObjectId * string) :=
  u ← d_user d;
  c ← requiredString (Js.trim <$> d_content d);
  c' ← maxlength 280 c;
  Some (u, c').

(** [new Tweet(d).save()]: [None] when validation throws, else the stored
    document, appended to the collection.  The driver supplies the fresh
    [_id], the clock supplies [createdAt] and [updatedAt]. *)
Definition save (newId : ObjectId) (now : N) (d : Data) (ts : list Tweet)
    : option (Tweet * list Tweet) :=
  '(u, c) ← validate d;
  let t := mkTweet newId u c (d_image d) [] [] (d_retweetData d)
                   (d_replyTo d) now now in
  Some (t, ts ++ [t]).

End TweetSchema.

(** ** jsonwebtoken

    [jwt.verify(token, secret)] gives the decoded payload's id, or throws
    ([None]).  A route file that does not [require('jsonwebtoken')] has no
    binding for the identifier [jwt]: evaluating [jwt.verify] there throws a
    ReferenceError.  Every use sits inside a [try { } catch (err) { }] that
    only logs, so both failures are the same [None]. *)

Definition JwtVerify := string → option ObjectId.

Definition callVerify (jwt : option JwtVerify) (token : string)
    : option ObjectId :=
  match jwt with
  | Some verify => verify token
  | None => None
  end.

(** [req.headers.authorization.replace('Bearer ', '')] then [jwt.verify],
    guarded by [if (req.headers.authorization)]. *)
Definition decodeViewer (jwt : option JwtVerify) (authorization : option string)
    : option ObjectId :=
  h ← Js.truthy authorization;
  callVerify jwt (Js.removeFirst "Bearer " h).

(** A tweet as sent to the client: [{ ...tweet.toObject(), isLiked,
    isRetweeted }]; a flag is [None] when the handler sends the document
    without that field. *)
Record TweetView := mkView {
  v_tweet : Tweet;
  isLiked : option bool;
  isRetweeted : option bool
}.

Definition plainView (t : Tweet) : TweetView := mkView t None None.

(** [tweet.likes.includes(id)], [tweet.retweets.includes(id)]. *)
Definition withInteraction (viewer : ObjectId) (t : Tweet) : TweetView :=
  mkView t (Some (bool_decide (viewer ∈ likes t)))
           (Some (bool_decide (viewer ∈ retweets t))).

(** ** The tweets routes (/api/tweets) *)

Module Tweets.

(** The file requires express, the auth and upload middleware, cloudinary
    and the two models; nothing binds [jwt]. *)
Definition jwt : option JwtVerify := None.

Definition setTweets (db : Db) (ts : list Tweet) : Db := mkDb (users db) ts.

(** What [findByIdAndUpdate] with an operator on [likes] (on [retweets])
    does to the document: the array is updated and, the schema having
    [timestamps: true], [updatedAt] is set to the time of the request. *)
Definition setLikes (now : N) (f : list ObjectId → list ObjectId) (t : Tweet)
    : Tweet :=
  mkTweet (_id t) (user t) (content t) (image t) (f (likes t)) (retweets t)
          (retweetData t) (replyTo t) (createdAt t) now.

Definition setRetweets (now : N) (f : list ObjectId → list ObjectId)
    (t : Tweet) : Tweet :=
  mkTweet (_id t) (user t) (content t) (image t) (likes t) (f (retweets t))
          (retweetData t) (replyTo t) (createdAt t) now.

(** [.skip(n)]: the server refuses a negative skip ([None]). *)
Definition skip (n : Z) (ts : list Tweet) : option (list Tweet) :=
  if decide (n < 0)%Z then None else Some (drop (Z.to_nat n) ts).

(** [.limit(n)]: 0 is no limit, a negative limit is taken by its absolute
    value. *)
Definition limit (n : Z) (ts : list Tweet) : list Tweet :=
  if decide (n = 0)%Z then ts else take (Z.abs_nat n) ts.

(** GET /api/tweets, the timeline.  [me] is [req.user], the document the
    auth middleware loaded for [uid]; [page] and [lim] are
    [parseInt(req.query.page)] and [parseInt(req.query.limit)].  The
    handler pushes the viewer's id onto [req.user.following]; that array
    belongs to this request's copy of the document and is never saved. *)
Definition getTimeline (db : Db) (uid : ObjectId) (me : User)
    (page lim : option Z) : Response (list TweetView) :=
  let page := Js.orDefault page 1 in
  let lim := Js.orDefault lim 10 in
  let skipN := ((page - 1) * lim)%Z in
  let following := following me ++ [uid] in
  let found :=
    filter (λ t, user t ∈ following ∧ replyTo t = None) (tweets db) in
  match skip skipN (Mongo.sortNewestFirst found) with
  | Some rest => Json (withInteraction uid <$> limit lim rest)
  | None => server_error
  end.

(** POST /api/tweets.  [file] is [req.file.path] when an image is attached,
    [upload] is cloudinary's uploader ([None] when it throws). *)
Definition createTweet (upload : string → option string)
    (newId : ObjectId) (now : N) (db : Db) (uid : ObjectId)
    (content : option string) (file : option string)
    (replyTo : option ObjectId) : Db * Response TweetView :=
  match Js.truthy content, file with
  | None, None => (db, Fail 400 "Tweet content is required")
  | _, _ =>
    let imageUrl :=
      match file with
      | Some path => upload path
      | None => Some EmptyString
      end in
    match imageUrl with
    | None => (db, server_error)
    | Some url =>
      let parentMissing :=
        match replyTo with
        | Some parent => bool_decide (Mongo.findById parent (tweets db) = None)
        | None => false
        end in
      if parentMissing then (db, Fail 404 "Tweet to reply to not found")
      else
        let tweetData :=
          TweetSchema.mkData (Some uid)
            (Some (default EmptyString (Js.truthy content)))
            (Some url) None replyTo in
        match TweetSchema.save newId now tweetData (tweets db) with
        | Some (t, ts) => (setTweets db ts, Json (mkView t (Some false) (Some false)))
        | None => (db, server_error)
        end
    end
  end.

(** GET /api/tweets/:id, for the id that the route parameter denotes. *)
Definition getTweet (db : Db) (id : ObjectId) (authorization : option string)
    : Response TweetView :=
  match Mongo.findById id (tweets db) with
  | None => Fail 404 "Tweet not found"
  | Some t =>
    match decodeViewer jwt authorization with
    | Some viewer => Json (withInteraction viewer t)
    | None => Json (mkView t (Some false) (Some false))
    end
  end.

(** DELETE /api/tweets/:id, for the id that the route parameter denotes. *)
Definition deleteTweet (db : Db) (uid id : ObjectId) : Db * Response string :=
  match Mongo.findById id (tweets db) with
  | None => (db, Fail 404 "Tweet not found")
  | Some t =>
    if decide (user t ≠ uid) then (db, Fail 401 "User not authorized")
    else
      let ts1 := Mongo.deleteOne (λ x, _id x = _id t) (tweets db) in
      let ts2 := Mongo.deleteMany (λ x, replyTo x = Some id) ts1 in
      (setTweets db ts2, Json "Tweet deleted")
  end.

(** POST /api/tweets/:id/like, for the id that the route parameter
    denotes. *)
Definition likeTweet (now : N) (db : Db) (uid id : ObjectId)
    : Db * Response string :=
  match Mongo.findById id (tweets db) with
  | None => (db, Fail 404 "Tweet not found")
  | Some t =>
    if decide (uid ∈ likes t) then
      (setTweets db (Mongo.updateById id (setLikes now (Mongo.pull uid)) (tweets db)),
       Json "Tweet unliked")
    else
      (setTweets db
         (Mongo.updateById id (setLikes now (Mongo.addToSet uid)) (tweets db)),
       Json "Tweet liked")
  end.

(** POST /api/tweets/:id/retweet, for the id that the route parameter
    denotes. *)
Definition retweetTweet (newId : ObjectId) (now : N) (db : Db)
    (uid id : ObjectId) : Db * Response string :=
  match Mongo.findById id (tweets db) with
  | None => (db, Fail 404 "Tweet not found")
  | Some t =>
    if decide (uid ∈ retweets t) then
      let ts1 :=
        Mongo.updateById id (setRetweets now (Mongo.pull uid)) (tweets db) in
      let ts2 :=
        Mongo.deleteOne (λ x, user x = uid ∧ retweetData x = Some id) ts1 in
      (setTweets db ts2, Json "Tweet unretweeted")
    else
      let ts1 :=
        Mongo.updateById id (setRetweets now (Mongo.addToSet uid)) (tweets db) in
      let retweet := TweetSchema.mkData (Some uid) None None (Some id) None in
      match TweetSchema.save newId now retweet ts1 with
      | Some (_, ts2) => (setTweets db ts2, Json "Tweet retweeted")
      | None => (setTweets db ts1, server_error)
      end
  end.

(** GET /api/tweets/:id/comments, for the id that the route parameter
    denotes. *)
Definition getComments (db : Db) (id : ObjectId)
    (authorization : option string) : Response (list TweetView) :=
  let comments :=
    Mongo.sortNewestFirst (filter (λ t, replyTo t = Some id) (tweets db)) in
  match decodeViewer jwt authorization with
  | Some viewer => Json (withInteraction viewer <$> comments)
  | None => Json (plainView <$> comments)
  end.

(** GET /api/tweets/user/:userId, for the id that the route parameter
    denotes. *)
Definition getUserTweets (db : Db) (userId : ObjectId)
    (authorization : option string) : Response (list TweetView) :=
  let found :=
    Mongo.sortNewestFirst
      (filter (λ t, user t = userId ∧ replyTo t = None) (tweets db)) in
  match decodeViewer jwt authorization with
  | Some viewer => Json (withInteraction viewer <$> found)
  | None => Json (plainView <$> found)
  end.

(** ** The handlers on the route parameter

    The definitions above take the tweet or user id that the route
    parameter denotes.  Each handler's first use of the parameter is a query
    that casts it; a string that is no ObjectId makes the query throw a
    CastError, which the handler's outer [catch] answers with 500 before
    anything is written.  Every later use casts the same string. *)

Definition getTweetRoute (db : Db) (param : string)
    (authorization : option string) : Response TweetView :=
  match Mongo.castId param with
  | Some id => getTweet db id authorization
  | None => server_error
  end.

Definition deleteTweetRoute (db : Db) (uid : ObjectId) (param : string)
    : Db * Response string :=
  match Mongo.castId param with
  | Some id => deleteTweet db uid id
  | None => (db, server_error)
  end.

Definition likeTweetRoute (now : N) (db : Db) (uid : ObjectId)
    (param : string) : Db * Response string :=
  match Mongo.castId param with
  | Some id => likeTweet now db uid id
  | None => (db, server_error)
  end.

Definition retweetTweetRoute (newId : ObjectId) (now : N) (db : Db)
    (uid : ObjectId) (param : string) : Db * Response string :=
  match Mongo.castId param with
  | Some id => retweetTweet newId now db uid id
  | None => (db, server_error)
  end.


Definition getUserTweetsRoute (db : Db) (param : string)
    (authorization : option string) : Response (list TweetView) :=
  match Mongo.castId param with
  | Some userId => getUserTweets db userId authorization
  | None => server_error
  end.

End Tweets.

(** ** routes/users.js *)

Module Users.

(** As in the tweets routes, nothing in the file binds [jwt]. *)
Definition jwt : option JwtVerify := None.

Definition setUsers (db : Db) (us : gmap ObjectId User) : Db :=
  mkDb us (tweets db).

Definition setFollowing (f : list ObjectId → list ObjectId) (u : User) : User :=
  mkUser (u_username u) (u_name u) (f (following u)) (followers u).

Definition setFollowers (f : list ObjectId → list ObjectId) (u : User) : User :=
  mkUser (u_username u) (u_name u) (following u) (f (followers u)).

(** [User.findOne({ username })]. *)
Definition findOneByUsername (username : string) (us : gmap ObjectId User)
    : option (ObjectId * User) :=
  snd <$> list_find (λ iu, u_username iu.2 = username) (map_to_list us).

(** The body of GET /api/users/:username:
    [{ ...user.toObject(), tweets: tweetCount, isFollowing }]. *)
Record Profile := mkProfile {
  p_id : ObjectId;
  p_user : User;
  p_tweets : nat;
  isFollowing : bool
}.

(** GET /api/users/:username. *)
Definition getUser (db : Db) (username : string)
    (authorization : option string) : Response Profile :=
  match findOneByUsername username (users db) with
  | None => Fail 404 "User not found"
  | Some (i, u) =>
    let tweetCount :=
      length (filter (λ t, user t = i ∧ replyTo t = None) (tweets db)) in
    let isFollowing :=
      match decodeViewer jwt authorization with
      | Some viewer =>
          match users db !! viewer with
          | Some currentUser => bool_decide (i ∈ following currentUser)
          | None => false
          end
      | None => false
      end in
    Json (mkProfile i u tweetCount isFollowing)
  end.

(** POST /api/users/:id/follow; [uid] is [req.user.id] and [param] is
    [req.params.id], the string of the URL.  The self-follow guard compares
    [param] with the actor's id string; [findById] and the update operators
    cast [param] to an id; [currentUser.following.includes(param)] compares
    [param] with the string of each id in the array. *)
Definition followUser (db : Db) (uid : ObjectId) (param : string)
    : Db * Response string :=
  if decide (param = Mongo.idString uid)
  then (db, Fail 400 "You cannot follow yourself")
  else
    match Mongo.castId param with
    | None => (db, server_error)
    | Some id =>
      match users db !! id with
      | None => (db, Fail 404 "User not found")
      | Some _ =>
        match users db !! uid with
        | None => (db, server_error)
        | Some currentUser =>
          if decide (param ∈ Mongo.idString <$> following currentUser) then
            let us1 := alter (setFollowing (Mongo.pull id)) uid (users db) in
            let us2 := alter (setFollowers (Mongo.pull uid)) id us1 in
            (setUsers db us2, Json "User unfollowed")
          else
            let us1 :=
              alter (setFollowing (Mongo.addToSet id)) uid (users db) in
            let us2 := alter (setFollowers (Mongo.addToSet uid)) id us1 in
            (setUsers db us2, Json "User followed")
        end
      end
    end.

(** A sequence of follow requests, each an actor and a route parameter. *)
Definition followAll (db : Db) (calls : list (ObjectId * string)) : Db :=
  foldl (λ d c, (followUser d c.1 c.2).1) db calls.

(** What [.select('_id name username ...')] leaves of a user document, plus
    the flag a handler may add; [s_followers] is present only when the
    selection names [followers]. *)
Record UserSummary := mkSummary {
  s_id : ObjectId;
  s_username : string;
  s_name : string;
  s_followers : option (list ObjectId);
  s_isFollowing : option bool
}.

Definition summary (iu : ObjectId * User) : UserSummary :=
  mkSummary iu.1 (u_username iu.2) (u_name iu.2) None None.

(** [.populate(path, fields)] on an array of user ids: each id is replaced
    by the selected fields of its document; an id without a document is
    dropped from the array. *)
Definition populateUsers (us : gmap ObjectId User) (ids : list ObjectId)
    : list UserSummary :=
  omap (λ i, (λ u, summary (i, u)) <$> us !! i) ids.

(** GET /api/users/:id/followers. *)
Definition getFollowers (db : Db) (id : ObjectId)
    : Response (list UserSummary) :=
  match users db !! id with
  | None => Fail 404 "User not found"
  | Some u => Json (populateUsers (users db) (followers u))
  end.

(** GET /api/users/:id/following. *)
Definition getFollowing (db : Db) (id : ObjectId)
    : Response (list UserSummary) :=
  match users db !! id with
  | None => Fail 404 "User not found"
  | Some u => Json (populateUsers (users db) (following u))
  end.

(** GET /api/users/suggested; [me] is [req.user].  The order in which
    [User.find] yields the documents is the store's; here it is the order of
    [map_to_list]. *)
Definition getSuggested (db : Db) (uid : ObjectId) (me : User)
    : Response (list UserSummary) :=
  let found :=
    take 5 (filter (λ iu, iu.1 ≠ uid ∧ iu.1 ∉ following me)
                   (map_to_list (users db))) in
  Json ((λ iu, mkSummary iu.1 (u_username iu.2) (u_name iu.2) None
                 (Some false)) <$> found).

End Users.

(** ** routes/search.js *)

Module Search.

Section Handlers.

(** [const jwt = require('jsonwebtoken')]. *)
Variable jsonwebtoken : JwtVerify.

Definition jwt : option JwtVerify := Some jsonwebtoken.

(** GET /api/search/tweets on the modelled fragment of regular
    expressions: the outer [None] is a query outside the fragment, about
    which this definition says nothing ([searchTweetsWith] below covers
    every query). *)
Definition searchTweets (db : Db) (q : option string)
    (authorization : option string) : option (Response (list TweetView)) :=
  match Js.truthy q with
  | None => Some (Fail 400 "Search query is required")
  | Some query =>
    p ← Regex.parse query;
    let found :=
      take 20
        (Mongo.sortNewestFirst
           (filter (λ t, Regex.search p (content t) = true ∧ replyTo t = None)
                   (tweets db))) in
    Some (match decodeViewer jwt authorization with
          | Some viewer => Json (withInteraction viewer <$> found)
          | None => Json (plainView <$> found)
          end)
  end.

(** GET /api/search/users on the modelled fragment, as [searchTweets]. *)
Definition searchUsers (db : Db) (q : option string)
    (authorization : option string)
    : option (Response (list Users.UserSummary)) :=
  match Js.truthy q with
  | None => Some (Fail 400 "Search query is required")
  | Some query =>
    p ← Regex.parse query;
    let found :=
      take 20
        (filter (λ iu, Regex.search p (u_name iu.2) = true
                       ∨ Regex.search p (u_username iu.2) = true)
                (map_to_list (users db))) in
    let selected (iu : ObjectId * User) :=
      Users.mkSummary iu.1 (u_username iu.2) (u_name iu.2)
        (Some (followers iu.2)) in
    let plain := (λ iu, selected iu None) <$> found in
    Some (Json
      match decodeViewer jwt authorization with
      | Some viewer =>
          match users db !! viewer with
          | Some currentUser =>
              (λ iu, selected iu
                       (Some (bool_decide (iu.1 ∈ following currentUser))))
                <$> found
          | None => plain
          end
      | None => plain
      end)
  end.

(** MongoDB's regular-expression engine, with option [i]: [mongoRegex q] is
    [None] when [q] is not a valid pattern, in which case the query fails
    and the handler's outer [catch] answers 500; otherwise it is the test
    that the pattern performs on a string. *)
Variable mongoRegex : string → option (string → bool).

(** GET /api/search/tweets, for every query. *)
Definition searchTweetsWith (db : Db) (q : option string)
    (authorization : option string) : Response (list TweetView) :=
  match Js.truthy q with
  | None => Fail 400 "Search query is required"
  | Some query =>
    match mongoRegex query with
    | None => server_error
    | Some matches =>
      let found :=
        take 20
          (Mongo.sortNewestFirst
             (filter (λ t, matches (content t) = true ∧ replyTo t = None)
                     (tweets db))) in
      match decodeViewer jwt authorization with
      | Some viewer => Json (withInteraction viewer <$> found)
      | None => Json (plainView <$> found)
      end
    end
  end.

(** GET /api/search/users, for every query. *)
Definition searchUsersWith (db : Db) (q : option string)
    (authorization : option string) : Response (list Users.UserSummary) :=
  match Js.truthy q with
  | None => Fail 400 "Search query is required"
  | Some query =>
    match mongoRegex query with
    | None => server_error
    | Some matches =>
      let found :=
        take 20
          (filter (λ iu, matches (u_name iu.2) = true
                         ∨ matches (u_username iu.2) = true)
                  (map_to_list (users db))) in
      let selected (iu : ObjectId * User) :=
        Users.mkSummary iu.1 (u_username iu.2) (u_name iu.2)
          (Some (followers iu.2)) in
      let plain := (λ iu, selected iu None) <$> found in
      Json
        match decodeViewer jwt authorization with
        | Some viewer =>
            match users db !! viewer with
            | Some currentUser =>
                (λ iu, selected iu
                         (Some (bool_decide (iu.1 ∈ following currentUser))))
                  <$> found
            | None => plain
            end
        | None => plain
        end
    end
  end.

End Handlers.

End Search.

(** The modelled fragment as an engine: a query outside the fragment is
    treated as an invalid pattern. *)
Definition fragmentRegex (q : string) : option (string → bool) :=
  Regex.search <$> Regex.parse q.

(** ** Express routing

    A router tries its routes in the order they were registered and runs
    the first whose method and path match; none of the handlers here passes
    control on.  A path is the list of its segments.  A static segment
    matches without regard to case (the router's default), a parameter
    matches any segment. *)

Module Router.

Inductive Method : Type := GET | POST | PUT | DELETE.

Global Instance Method_eq_dec : EqDecision Method.
Proof. solve_decision. Defined.

Inductive Segment : Type :=
| Static (s : string)
| Param (name : string).

Fixpoint matchPath (pat : list Segment) (path : list string)
    : option (list (string * string)) :=
  match pat, path with
  | [], [] => Some []
  | Static s :: pat', seg :: path' =>
      if decide (Regex.lower <$> list_ascii_of_string s
                 = Regex.lower <$> list_ascii_of_string seg)
      then matchPath pat' path' else None
  | Param name :: pat', seg :: path' =>
      ((name, seg) ::.) <$> matchPath pat' path'
  | _, _ => None
  end.

Fixpoint dispatch {H : Type} (routes : list (Method * list Segment * H))
    (m : Method) (path : list string)
    : option (H * list (string * string)) :=
  match routes with
  | [] => None
  | (m', pat, h) :: routes' =>
      match (if decide (m' = m) then matchPath pat path else None) with
      | Some params => Some (h, params)
      | None => dispatch routes' m path
      end
  end.

(** The routes of routes/users.js, in the order of the file. *)
Inductive UsersHandler : Type :=
| Me | GetUser | PutProfile | ProfilePicture | CoverPhoto
| Follow | Followers | Following | Suggested.

Definition usersRoutes : list (Method * list Segment * UsersHandler) :=
  [ (GET, [Static "me"], Me);
    (GET, [Param "username"], GetUser);
    (PUT, [Static "profile"], PutProfile);
    (POST, [Static "profile-picture"], ProfilePicture);
    (POST, [Static "cover-photo"], CoverPhoto);
    (POST, [Param "id"; Static "follow"], Follow);
    (GET, [Param "id"; Static "followers"], Followers);
    (GET, [Param "id"; Static "following"], Following);
    (GET, [Static "suggested"], Suggested) ].

(** The tweets routes, in the order of the file. *)
Inductive TweetsHandler : Type :=
| Timeline | Create | GetTweet | DeleteTweet | Like | Retweet
| Comments | UserTweets.

Definition tweetsRoutes : list (Method * list Segment * TweetsHandler) :=
  [ (GET, [], Timeline);
    (POST, [], Create);
    (GET, [Param "id"], GetTweet);
    (DELETE, [Param "id"], DeleteTweet);
    (POST, [Param "id"; Static "like"], Like);
    (POST, [Param "id"; Static "retweet"], Retweet);
    (GET, [Param "id"; Static "comments"], Comments);
    (GET, [Static "user"; Param "userId"], UserTweets) ].

(** The routes of routes/search.js. *)
Inductive SearchHandler : Type := SearchTweets | SearchUsers.

Definition searchRoutes : list (Method * list Segment * SearchHandler) :=
  [ (GET, [Static "tweets"], SearchTweets);
    (GET, [Static "users"], SearchUsers) ].

End Router.

(** ** State predicates used by the statements *)

(** Graph symmetry between two stored users. *)
Definition edgeConsistent (db : Db) (a b : ObjectId) : Prop :=
  ∀ ua ub, users db !! a = Some ua → users db !! b = Some ub →
    (b ∈ following ua ↔ a ∈ followers ub).

Definition symmetric (db : Db) : Prop := ∀ a b, edgeConsistent db a b.

Definition noSelfFollow (db : Db) : Prop :=
  ∀ a ua, users db !! a = Some ua → (a ∉ following ua) ∧ (a ∉ followers ua).

Definition followingSet (u : User) : gset ObjectId := list_to_set (following u).
Definition followersSet (u : User) : gset ObjectId := list_to_set (followers u).

(** Two user documents with the same edge sets (and the same profile). *)
Definition sameEdges (u u' : User) : Prop :=
  u_username u = u_username u' ∧ u_name u = u_name u' ∧
  followingSet u = followingSet u' ∧ followersSet u = followersSet u'.

Definition sameGraph (db db' : Db) : Prop :=
  ∀ x, option_Forall2 sameEdges (users db !! x) (users db' !! x).

(** No membership array holds an id twice. *)
Definition duplicateFree (db : Db) : Prop :=
  (∀ t, t ∈ tweets db → NoDup (likes t) ∧ NoDup (retweets t)) ∧
  (∀ i u, users db !! i = Some u → NoDup (following u) ∧ NoDup (followers u)).

(** The retweet wrappers of [uid] for the tweet [id]. *)
Definition wrappers (uid id : ObjectId) (ts : list Tweet) : list Tweet :=
  filter (λ x, user x = uid ∧ retweetData x = Some id) ts.

(** Case-insensitive substring, as the specification words the search:
    some stretch of [s] equals [q] once both are put in lower case. *)
Definition lowercase (s : string) : list ascii :=
  Regex.lower <$> list_ascii_of_string s.

Definition containsCI (q s : string) : Prop :=
  ∃ pre post, lowercase s = pre ++ lowercase q ++ post.

Fixpoint isPrefix (p s : list ascii) : bool :=
  match p, s with
  | [], _ => true
  | a :: p', b :: s' => bool_decide (a = b) && isPrefix p' s'
  | _ :: _, [] => false
  end.

Fixpoint isInfix (p s : list ascii) : bool :=
  isPrefix p s ||
  match s with
  | _ :: s' => isInfix p s'
  | [] => false
  end.

(** A query is literal when none of its characters is a regular-expression
    metacharacter. *)
Definition literal (q : string) : Prop :=
  ∀ c, c ∈ list_ascii_of_string q → c ∉ Regex.metachars.

(** ** A small database for the concrete cases

    alice (1) is followed by bob (2).  alice's "hello" (10) is liked and
    retweeted by bob; 11 is bob's reply to it, 12 alice's reply to that
    reply, 13 bob's retweet wrapper for 10. *)

Module Sample.

Definition alice : User := mkUser "alice" "Alice" [] [2].
Definition bob : User := mkUser "bob" "Bob" [1] [].

Definition hello : Tweet := mkTweet 10 1 "hello" None [2] [2] None None 100 100.
Definition reply : Tweet := mkTweet 11 2 "hi alice" None [] [] None (Some 10) 110 110.
Definition nested : Tweet := mkTweet 12 1 "hi bob" None [] [] None (Some 11) 120 120.
Definition wrapper : Tweet := mkTweet 13 2 "" None [] [] (Some 10) None 130 130.

Definition db : Db :=
  mkDb (<[1 := alice]> (<[2 := bob]> ∅)) [hello; reply; nested; wrapper].

(** Two users whose ids have a letter among their hexadecimal digits,
    ann (10, written ...0a) and ben (11, written ...0b), and no edge
    between them. *)
Definition ann : User := mkUser "ann" "Ann" [] [].
Definition ben : User := mkUser "ben" "Ben" [] [].

Definition followDb : Db := mkDb (<[10 := ann]> (<[11 := ben]> ∅)) [].

(** A verifier that knows one token, bob's. *)
Definition verify : JwtVerify :=
  λ token, if decide (token = "bob-token") then Some 2 else None.

End Sample.

(** Two tweets that differ at most in their [likes] and their
    [updatedAt]. *)
Definition sameButLikes (t t' : Tweet) : Prop :=
  _id t = _id t' ∧ user t = user t' ∧ content t = content t' ∧
  image t = image t' ∧ retweets t = retweets t' ∧
  retweetData t = retweetData t' ∧ replyTo t = replyTo t' ∧
  createdAt t = createdAt t'.

(** What the schema's validators let through: text that is not empty and
    has at most 280 characters. *)
Definition contentValid (db : Db) : Prop :=
  ∀ t, t ∈ tweets db →
    content t ≠ EmptyString ∧ (String.length (content t) ≤ 280)%nat.

(** * Theorems *)

(** ** The update operators *)

Lemma elem_of_addToSet x y l : y ∈ Mongo.addToSet x l ↔ y = x ∨ y ∈ l.
Proof.
  unfold Mongo.addToSet. case_decide as Hx.
  - split; [by right | intros [-> | ?]; done].
  - rewrite elem_of_app, list_elem_of_singleton. tauto.
Qed.

Lemma elem_of_pull x y l : y ∈ Mongo.pull x l ↔ y ∈ l ∧ y ≠ x.
Proof. unfold Mongo.pull. rewrite list_elem_of_filter. tauto. Qed.

Lemma NoDup_addToSet x l : NoDup l → NoDup (Mongo.addToSet x l).
Proof.
  intros Hl. unfold Mongo.addToSet. case_decide as Hx; [done|].
  apply NoDup_app. split_and!; [done | | apply NoDup_singleton].
  intros y Hy ->%list_elem_of_singleton. done.
Qed.

Lemma NoDup_pull x l : NoDup l → NoDup (Mongo.pull x l).
Proof. apply NoDup_filter. Qed.

(** ** Id strings *)

Section IdStrings.

Lemma hexValue_hexDigit d : d < 16 → Mongo.hexValue (Mongo.hexDigit d) = Some d.
Proof.
  intros Hd.
  assert (d ∈ (N.of_nat <$> seq 0 16)) as Hin.
  { apply list_elem_of_fmap. exists (N.to_nat d). split; [lia|].
    apply elem_of_seq. lia. }
  simpl in Hin. repeat (apply elem_of_cons in Hin as [-> | Hin]); try done.
  by apply elem_of_nil in Hin.
Qed.

Lemma length_hexDigits n x acc :
  String.length (Mongo.hexDigits n x acc) = (n + String.length acc)%nat.
Proof.
  revert x acc. induction n as [|n IH]; intros x acc; simpl; [done|].
  rewrite IH. simpl. lia.
Qed.

Lemma parseHex_hexDigits n x acc a :
  Mongo.parseHex (Mongo.hexDigits n x acc) a
  = Mongo.parseHex acc (a * 16 ^ N.of_nat n + x mod 16 ^ N.of_nat n).
Proof.
  revert x acc a. induction n as [|n IH]; intros x acc a.
  - simpl. rewrite N.mod_1_r. f_equal. lia.
  - cbn [Mongo.hexDigits]. rewrite IH. cbn [Mongo.parseHex].
    rewrite hexValue_hexDigit by (apply N.mod_lt; lia).
    f_equal. rewrite Nat2N.inj_succ, N.pow_succ_r'.
    rewrite (N.Div0.mod_mul_r x 16 (16 ^ N.of_nat n)). lia.
Qed.

(** Casting the string that [toString] gives returns the id. *)
Lemma castId_idString i :
  i < 2 ^ 96 → Mongo.castId (Mongo.idString i) = Some i.
Proof.
  intros Hi. unfold Mongo.castId, Mongo.idString.
  rewrite decide_True by (by rewrite length_hexDigits).
  rewrite parseHex_hexDigits. simpl Mongo.parseHex. f_equal.
  change (16 ^ N.of_nat 24) with (2 ^ 96). rewrite N.mod_small by done. lia.
Qed.

Lemma idString_inj i j :
  i < 2 ^ 96 → j < 2 ^ 96 → Mongo.idString i = Mongo.idString j → i = j.
Proof.
  intros Hi Hj Heq. apply castId_idString in Hi, Hj.
  rewrite Heq in Hi. congruence.
Qed.

(** [includes] with an id string in the form [toString] gives it is
    membership of the id. *)
Lemma includes_idString i (l : list ObjectId) :
  i < 2 ^ 96 → Forall (λ j, j < 2 ^ 96) l →
  Mongo.idString i ∈ Mongo.idString <$> l ↔ i ∈ l.
Proof.
  intros Hi Hl. rewrite list_elem_of_fmap. split.
  - intros (j & Heq & Hj). rewrite Forall_forall in Hl.
    by rewrite (idString_inj i j Hi (Hl j Hj) Heq).
  - intros Hin. by exists i.
Qed.

End IdStrings.

(** ** The follow toggle *)

Section Follow.
Import Users.

Lemma followUser_tweets db a param : tweets (followUser db a param).1 = tweets db.
Proof. unfold followUser. repeat case_match; done. Qed.

(** A request that fails a guard changes nothing. *)
Lemma followUser_guard db a param :
  param = Mongo.idString a ∨ Mongo.castId param = None ∨
  (∃ b, Mongo.castId param = Some b ∧ users db !! b = None) ∨
  users db !! a = None →
  (followUser db a param).1 = db.
Proof.
  unfold followUser. intros [-> | [Hc | [(b & Hc & Hb) | Ha]]].
  - by rewrite decide_True.
  - case_decide; [done|]. by rewrite Hc.
  - case_decide; [done|]. by rewrite Hc, Hb.
  - repeat case_match; simplify_eq; done.
Qed.

(** A request that passes the guards: the direction is the outcome of
    [includes], a comparison of strings. *)
Lemma followUser_run db a param b ua ub :
  param ≠ Mongo.idString a → Mongo.castId param = Some b →
  users db !! a = Some ua → users db !! b = Some ub →
  followUser db a param =
    if decide (param ∈ Mongo.idString <$> following ua)
    then (setUsers db (alter (setFollowers (Mongo.pull a)) b
                         (alter (setFollowing (Mongo.pull b)) a (users db))),
          Json "User unfollowed")
    else (setUsers db (alter (setFollowers (Mongo.addToSet a)) b
                         (alter (setFollowing (Mongo.addToSet b)) a (users db))),
          Json "User followed").
Proof.
  intros Hne Hc Ha Hb. unfold followUser.
  rewrite decide_False by done. by rewrite Hc, Hb, Ha.
Qed.

(** The two updates, read back. *)
Lemma follow_updates_lookup f g a b (us : gmap ObjectId User) x ux' :
  alter (setFollowers g) b (alter (setFollowing f) a us) !! x = Some ux' →
  ∃ ux, us !! x = Some ux ∧
        u_username ux' = u_username ux ∧ u_name ux' = u_name ux ∧
        following ux' = (if decide (x = a) then f (following ux)
                         else following ux) ∧
        followers ux' = (if decide (x = b) then g (followers ux)
                         else followers ux).
Proof.
  rewrite lookup_alter_Some.
  intros [(Hb & u1 & Hu1 & ->) | [Hxb Hu1]];
    rewrite lookup_alter_Some in Hu1;
    destruct Hu1 as [(Ha & u0 & Hu0 & ->) | [Hxa Hu0]];
    eexists; (split; [done|]); simpl;
    repeat case_decide; by simplify_eq.
Qed.

Lemma follow_updates_dom f g a b (us : gmap ObjectId User) :
  dom (alter (setFollowers g) b (alter (setFollowing f) a us)) = dom us.
Proof. by rewrite !dom_alter_L. Qed.

(** Membership after [$pull] or [$addToSet] of [w]. *)
Lemma elem_of_toggle (present : bool) (w z : ObjectId) (l : list ObjectId) :
  z ∈ (if present then Mongo.pull else Mongo.addToSet) w l ↔
  if decide (z = w) then present = false else z ∈ l.
Proof.
  destruct present; [rewrite elem_of_pull | rewrite elem_of_addToSet];
    case_decide; subst; split; try tauto; try done.
Qed.

(** The users after a request that passes the guards. *)
Lemma followUser_users db a param b ua ub :
  param ≠ Mongo.idString a → Mongo.castId param = Some b →
  users db !! a = Some ua → users db !! b = Some ub →
  ∃ present : bool,
    (present = true ↔ param ∈ Mongo.idString <$> following ua) ∧
    (followUser db a param).2
      = Json (if present then "User unfollowed" else "User followed") ∧
    users (followUser db a param).1
      = alter (setFollowers ((if present then Mongo.pull
                              else Mongo.addToSet) a)) b
          (alter (setFollowing ((if present then Mongo.pull
                                 else Mongo.addToSet) b)) a (users db)).
Proof.
  intros Hne Hc Ha Hb. rewrite (followUser_run db a param b ua ub) by done.
  case_decide as Hin.
  - exists true. by split.
  - exists false. split; [|done]. split; [done | by intros ?].
Qed.

(** Every request keeps the graph symmetric, whatever its parameter. *)
Lemma followUser_symmetric db a param :
  symmetric db → symmetric (followUser db a param).1.
Proof.
  intros Hsym.
  destruct (decide (param = Mongo.idString a)) as [Heq | Hne];
    [by rewrite followUser_guard by auto|].
  destruct (Mongo.castId param) as [b|] eqn:Hc;
    [|by rewrite followUser_guard by auto].
  destruct (users db !! b) as [ub|] eqn:Hb;
    [|by rewrite followUser_guard by eauto 6].
  destruct (users db !! a) as [ua|] eqn:Ha;
    [|by rewrite followUser_guard by auto].
  destruct (followUser_users db a param b ua ub Hne Hc Ha Hb)
    as (present & _ & _ & Hus).
  intros x y ux' uy'. rewrite Hus.
  intros (ux & Hux & _ & _ & -> & _)%follow_updates_lookup
         (uy & Huy & _ & _ & _ & ->)%follow_updates_lookup.
  specialize (Hsym x y ux uy Hux Huy).
  destruct (decide (x = a)) as [-> | Hxa], (decide (y = b)) as [-> | Hyb];
    rewrite ?elem_of_toggle; rewrite ?decide_True by done;
    rewrite ?decide_False by done; done.
Qed.

Lemma follow_symmetry_kept db (calls : list (ObjectId * string)) :
  symmetric db → symmetric (followAll db calls).
Proof.
  revert db. induction calls as [|[a param] calls IH]; intros db Hsym; [done|].
  unfold followAll. simpl. apply IH. by apply followUser_symmetric.
Qed.

(** The guard does refuse the actor's own id in the form [toString] gives
    it. *)
Lemma followUser_own_id_rejected db a :
  followUser db a (Mongo.idString a)
  = (db, Fail 400 "You cannot follow yourself").
Proof. unfold followUser. by rewrite decide_True. Qed.

Lemma sameEdges_refl u : sameEdges u u.
Proof. by repeat split. Qed.

Lemma sameGraph_refl db : sameGraph db db.
Proof.
  intros x. destruct (users db !! x); constructor. apply sameEdges_refl.
Qed.

(** Removing then adding, or adding then removing, gives back the set. *)
Lemma addToSet_pull_set (x : ObjectId) (l : list ObjectId) :
  x ∈ l →
  (list_to_set (Mongo.addToSet x (Mongo.pull x l)) : gset ObjectId)
  = list_to_set l.
Proof.
  intros Hx. apply set_eq. intros y.
  rewrite !elem_of_list_to_set, elem_of_addToSet, elem_of_pull.
  destruct (decide (y = x)) as [-> | ?]; tauto.
Qed.

Lemma pull_addToSet_set (x : ObjectId) (l : list ObjectId) :
  x ∉ l →
  (list_to_set (Mongo.pull x (Mongo.addToSet x l)) : gset ObjectId)
  = list_to_set l.
Proof.
  intros Hx. apply set_eq. intros y.
  rewrite !elem_of_list_to_set, elem_of_pull, elem_of_addToSet.
  destruct (decide (y = x)) as [-> | ?]; tauto.
Qed.

Lemma followDb_users_inv a u :
  users Sample.followDb !! a = Some u →
  (a = 10 ∧ u = Sample.ann) ∨ (a = 11 ∧ u = Sample.ben).
Proof.
  unfold Sample.followDb. simpl.
  rewrite lookup_insert_Some, lookup_insert_Some, lookup_empty.
  naive_solver.
Qed.

Lemma followDb_symmetric : symmetric Sample.followDb.
Proof.
  intros a b ua ub Ha Hb.
  destruct (followDb_users_inv _ _ Ha) as [[-> ->] | [-> ->]];
    destruct (followDb_users_inv _ _ Hb) as [[-> ->] | [-> ->]];
    simpl; set_solver.
Qed.

Lemma followDb_noSelfFollow : noSelfFollow Sample.followDb.
Proof.
  intros a ua Ha.
  destruct (followDb_users_inv _ _ Ha) as [[-> ->] | [-> ->]]; simpl; set_solver.
Qed.

(** Toggling twice, the second time in the other direction, gives back the
    members. *)
Lemma elem_of_toggle_twice (present : bool) (w y : ObjectId) (l : list ObjectId) :
  (present = true ↔ w ∈ l) →
  y ∈ (if negb present then Mongo.pull else Mongo.addToSet) w
        ((if present then Mongo.pull else Mongo.addToSet) w l) ↔ y ∈ l.
Proof.
  intros Hp. rewrite elem_of_toggle.
  destruct (decide (y = w)) as [-> | Hne].
  - rewrite <- Hp. by destruct present.
  - rewrite elem_of_toggle. by rewrite decide_False.
Qed.

(** What the toggle does for a parameter in the form [toString] gives it:
    from a state in which the edge between the two users is consistent, two
    requests in a row leave every user with the sets they had. *)
Lemma follow_twice_canonical db a b :
  a < 2 ^ 96 → b < 2 ^ 96 →
  (∀ ua, users db !! a = Some ua → Forall (λ j, j < 2 ^ 96) (following ua)) →
  edgeConsistent db a b →
  sameGraph db
    (followUser (followUser db a (Mongo.idString b)).1 a (Mongo.idString b)).1.
Proof.
  intros Ha96 Hb96 Hbound Hedge.
  set (param := Mongo.idString b).
  destruct (decide (a = b)) as [<- | Hab].
  { rewrite !(followUser_guard db a param) by auto. apply sameGraph_refl. }
  assert (param ≠ Mongo.idString a) as Hne
    by (intros Heq%idString_inj; done).
  assert (Mongo.castId param = Some b) as Hc by by apply castId_idString.
  destruct (users db !! b) as [ub|] eqn:Hb;
    [|rewrite !(followUser_guard db a param) by eauto 6; apply sameGraph_refl].
  destruct (users db !! a) as [ua|] eqn:Ha;
    [|rewrite !(followUser_guard db a param) by auto; apply sameGraph_refl].
  specialize (Hedge ua ub Ha Hb). specialize (Hbound ua eq_refl).
  destruct (followUser_users db a param b ua ub Hne Hc Ha Hb)
    as (present & Hpresent & _ & Hus).
  unfold param in Hpresent. rewrite includes_idString in Hpresent by done.
  set (db1 := (followUser db a param).1) in *.
  assert (∃ ua1, users db1 !! a = Some ua1 ∧
                 following ua1 = (if present then Mongo.pull else Mongo.addToSet)
                                   b (following ua)) as (ua1 & Ha1 & Hf1).
  { assert (is_Some (users db1 !! a)) as [ua1 Ha1].
    { apply elem_of_dom. rewrite Hus, follow_updates_dom.
      apply elem_of_dom. eauto. }
    exists ua1. split; [done|]. rewrite Hus in Ha1.
    apply follow_updates_lookup in Ha1 as (u0 & Hu0 & _ & _ & -> & _).
    rewrite decide_True by done.
    assert (Some u0 = Some ua) as [= ->] by exact (eq_trans (eq_sym Hu0) Ha).
    done. }
  assert (is_Some (users db1 !! b)) as [ub1 Hb1].
  { apply elem_of_dom. rewrite Hus, follow_updates_dom.
    apply elem_of_dom. eauto. }
  destruct (followUser_users db1 a param b ua1 ub1 Hne Hc Ha1 Hb1)
    as (present' & Hpresent' & _ & Hus').
  assert (Forall (λ j, j < 2 ^ 96) (following ua1)) as Hbound1.
  { rewrite Hf1. apply Forall_forall. intros j Hj.
    apply elem_of_toggle in Hj. case_decide; [by subst|].
    rewrite Forall_forall in Hbound. by apply Hbound. }
  unfold param in Hpresent'.
  rewrite (includes_idString b (following ua1) Hb96 Hbound1) in Hpresent'.
  rewrite Hf1 in Hpresent'. rewrite elem_of_toggle in Hpresent'.
  rewrite (decide_True (P := b = b)) in Hpresent' by reflexivity.
  assert (present' = negb present) as ->.
  { destruct present, present'; simpl; try reflexivity.
    - by apply Hpresent'.
    - by apply Hpresent'. }
  clear Hpresent'.
  intros x.
  destruct (users (followUser db1 a param).1 !! x) as [ux2|] eqn:Hx2.
  - rewrite Hus' in Hx2.
    apply follow_updates_lookup in Hx2 as (ux1 & Hx1 & Hn1 & Hn1' & Hf2 & Hg2).
    rewrite Hus in Hx1.
    apply follow_updates_lookup in Hx1 as (ux & Hx & Hn0 & Hn0' & Hf & Hg).
    assert (x = a → ux = ua) as Hxa.
    { intros ->. apply (inj Some). exact (eq_trans (eq_sym Hx) Ha). }
    assert (x = b → ux = ub) as Hxb.
    { intros ->. apply (inj Some). exact (eq_trans (eq_sym Hx) Hb). }
    refine (eq_rect_r (λ o, option_Forall2 sameEdges o (Some ux2)) _ Hx).
    constructor. unfold sameEdges, followingSet, followersSet.
    split; [congruence|]. split; [congruence|].
    rewrite Hf2, Hf, Hg2, Hg. split; apply set_eq; intros y;
      rewrite !elem_of_list_to_set.
    + repeat case_decide; try done;
        rewrite (Hxa ltac:(assumption)); symmetry;
        by apply elem_of_toggle_twice.
    + repeat case_decide; try done;
        rewrite (Hxb ltac:(assumption)); symmetry;
        apply elem_of_toggle_twice; by rewrite <- Hedge.
  - apply not_elem_of_dom in Hx2.
    rewrite Hus', follow_updates_dom, Hus, follow_updates_dom in Hx2.
    apply not_elem_of_dom in Hx2.
    refine (eq_rect_r (λ o, option_Forall2 sameEdges o None) _ Hx2).
    constructor.
Qed.

(** On the graph of ann and ben: ann's two requests with ben's id in lower
    case give back the graph, and the first of them does follow. *)
Example follow_twice_canonical_sample :
  (followUser Sample.followDb 10 "00000000000000000000000b").2
    = Json "User followed" ∧
  (followUser (followUser Sample.followDb 10 "00000000000000000000000b").1 10
     "00000000000000000000000b").2 = Json "User unfollowed" ∧
  sameGraph Sample.followDb
    (followUser (followUser Sample.followDb 10 "00000000000000000000000b").1 10
       "00000000000000000000000b").1.
Proof.
  split; [vm_compute; reflexivity|]. split; [vm_compute; reflexivity|].
  change "00000000000000000000000b" with (Mongo.idString 11).
  apply follow_twice_canonical; [reflexivity | reflexivity | |].
  - intros ua Hua.
    destruct (followDb_users_inv _ _ Hua) as [[_ ->] | [_ ->]];
      apply Forall_nil_2.
  - apply followDb_symmetric.
Qed.

(** C9.  The self-follow guard compares the route parameter with the
    actor's id as strings.  ann's id is written ...0a; the same id written
    ...0A is a different string, passes the guard, is cast to ann's id by
    [findById] and by the update operators, and is not found by
    [includes]: the request is answered "User followed" and ann is stored
    in her own [following] and [followers].  The claim expects the request
    to be refused with nothing written. *)
Theorem followUser_self_other_spelling :
  Mongo.castId "00000000000000000000000A" = Some 10 ∧
  Mongo.idString 10 = "00000000000000000000000a" ∧
  users Sample.followDb !! 10 = Some Sample.ann ∧
  (followUser Sample.followDb 10 "00000000000000000000000A").2
    = Json "User followed" ∧
  users (followUser Sample.followDb 10 "00000000000000000000000A").1 !! 10
    = Some (mkUser "ann" "Ann" [10] [10]).
Proof. split_and!; vm_compute; reflexivity. Qed.

(** C3.  Symmetry is kept by every sequence of follow requests, but the
    absence of self-follows is not: from the symmetric, self-follow-free
    graph of ann and ben, ann's one request with her own id written ...0A
    leads to a graph, still symmetric, in which ann is in her own
    [following] and [followers].  The claim expects no user ever to appear
    in their own sets. *)
Theorem follow_self_breaks_invariant :
  symmetric Sample.followDb ∧ noSelfFollow Sample.followDb ∧
  symmetric (followAll Sample.followDb [(10, "00000000000000000000000A")]) ∧
  ¬ noSelfFollow (followAll Sample.followDb [(10, "00000000000000000000000A")]).
Proof.
  split; [apply followDb_symmetric|]. split; [apply followDb_noSelfFollow|].
  split; [apply follow_symmetry_kept, followDb_symmetric|].
  intros Hself.
  destruct (Hself 10 (mkUser "ann" "Ann" [10] [10])) as [Hnot _];
    [vm_compute; reflexivity|].
  apply Hnot. simpl. by left.
Qed.

(** C2.  [includes] compares the route parameter with the strings of the
    followed ids.  ben's id is written ...0b; when ann, who does not follow
    ben, sends the follow request twice with the id written ...0B, the
    first request follows and the second, not finding that string among her
    followed ids, follows again: both are answered "User followed" and ann
    still follows ben afterwards.  The claim expects the second request to
    undo the first. *)
Theorem follow_twice_other_spelling :
  let param := "00000000000000000000000B" in
  let db1 := (followUser Sample.followDb 10 param).1 in
  let db2 := (followUser db1 10 param).1 in
  Mongo.castId param = Some 11 ∧
  users Sample.followDb !! 11 = Some Sample.ben ∧
  (followUser Sample.followDb 10 param).2 = Json "User followed" ∧
  (followUser db1 10 param).2 = Json "User followed" ∧
  users db2 !! 10 = Some (mkUser "ann" "Ann" [11] []) ∧
  users db2 !! 11 = Some (mkUser "ben" "Ben" [] [10]) ∧
  ¬ sameGraph Sample.followDb db2.
Proof.
  cbv zeta. split_and!; try (vm_compute; reflexivity).
  intros Hsame. specialize (Hsame 10).
  vm_compute in Hsame.
  change (option_Forall2 sameEdges (Some Sample.ann)
            (Some (mkUser "ann" "Ann" [11] []))) in Hsame.
  inversion Hsame as [? ? Hedges|]; subst.
  destruct Hedges as (_ & _ & Hfollowing & _).
  unfold followingSet in Hfollowing. simpl in Hfollowing.
  assert (11 ∈ (∅ : gset ObjectId)) as Hin
    by (rewrite Hfollowing; set_solver).
  set_solver.
Qed.

End Follow.

(** ** Collections *)

Lemma elem_of_updateById i f ts t' :
  t' ∈ Mongo.updateById i f ts → t' ∈ ts ∨ ∃ t, t ∈ ts ∧ t' = f t.
Proof.
  induction ts as [|t ts IH]; simpl; [by left|].
  case_decide; rewrite !elem_of_cons.
  - intros [-> | ?]; [right; exists t; by rewrite elem_of_cons; auto | auto].
  - intros [-> | Hin]; [auto|].
    destruct (IH Hin) as [? | (t0 & ? & ->)]; [auto|].
    right. exists t0. rewrite elem_of_cons. auto.
Qed.

Lemma elem_of_deleteOne (P : Tweet → Prop) `{∀ t, Decision (P t)} ts t :
  t ∈ Mongo.deleteOne P ts → t ∈ ts.
Proof.
  induction ts as [|t0 ts IH]; simpl; [done|].
  case_decide; rewrite !elem_of_cons; [auto|]. intros [-> | ?]; auto.
Qed.

Lemma save_inv newId now d ts t ts' :
  TweetSchema.save newId now d ts = Some (t, ts') →
  ts' = ts ++ [t] ∧ likes t = [] ∧ retweets t = [] ∧ _id t = newId.
Proof.
  unfold TweetSchema.save. destruct (TweetSchema.validate d) as [[u c]|]; simpl; [|done].
  intros [= <- <-]. done.
Qed.

(** ** Duplicate-free membership arrays *)

Section DuplicateFree.
Import Tweets Users.

Lemma duplicateFree_likeTweet now db uid id :
  duplicateFree db → duplicateFree (likeTweet now db uid id).1.
Proof.
  intros [Ht Hu]. unfold likeTweet.
  destruct (Mongo.findById id (tweets db)) as [t|]; [|done].
  case_decide; (split; [|done]); simpl;
    intros t' [? | (t0 & Hin & ->)]%elem_of_updateById; auto;
    destruct (Ht t0 Hin); simpl; auto using NoDup_pull, NoDup_addToSet.
Qed.

Lemma duplicateFree_retweetTweet newId now db uid id :
  duplicateFree db → duplicateFree (retweetTweet newId now db uid id).1.
Proof.
  intros [Ht Hu]. unfold retweetTweet.
  destruct (Mongo.findById id (tweets db)) as [t|]; [|done].
  assert (∀ f t', (∀ l, NoDup l → NoDup (f l)) →
            t' ∈ Mongo.updateById id (setRetweets now f) (tweets db) →
            NoDup (likes t') ∧ NoDup (retweets t')) as Hupd.
  { intros f t' Hf [? | (t0 & Hin & ->)]%elem_of_updateById; [auto|].
    destruct (Ht t0 Hin). simpl. auto. }
  case_decide.
  - split; [|done]. simpl. intros t' Hin%elem_of_deleteOne.
    eapply Hupd; [|done]. apply NoDup_pull.
  - destruct (TweetSchema.save _ _ _ _) as [[w ts2]|] eqn:Hsave.
    + apply save_inv in Hsave as (-> & Hl & Hr & _).
      split; [|done]. simpl. intros t' [Hin | ->%list_elem_of_singleton]%elem_of_app.
      * eapply Hupd; [|done]. apply NoDup_addToSet.
      * rewrite Hl, Hr. split; apply NoDup_nil_2.
    + split; [|done]. simpl. intros t' Hin.
      eapply Hupd; [|done]. apply NoDup_addToSet.
Qed.

Lemma duplicateFree_followUser db uid param :
  duplicateFree db → duplicateFree (followUser db uid param).1.
Proof.
  intros [Ht Hu]. unfold followUser.
  case_decide; [done|].
  destruct (Mongo.castId param) as [id|]; [|done].
  destruct (users db !! id) as [target|]; [|done].
  destruct (users db !! uid) as [currentUser|]; [|done].
  case_decide; (split; [done|]); simpl; intros i u;
    rewrite lookup_alter_Some;
    (intros [(_ & u1 & Hu1 & ->) | [_ Hu1]];
     rewrite lookup_alter_Some in Hu1;
     destruct Hu1 as [(_ & u0 & Hu0 & ->) | [_ Hu0]];
     destruct (Hu _ _ Hu0); simpl;
     auto using NoDup_pull, NoDup_addToSet).
Qed.

(** C10.  From a state in which no likes, retweets, following or followers
    array holds an id twice, the like toggle, the retweet toggle and the
    follow toggle each lead to such a state again: members are added with
    [$addToSet] and removed with [$pull]. *)
Theorem toggles_keep_duplicate_free
    (db : Db) (uid id newId : ObjectId) (now : N) (param : string) :
  duplicateFree db →
  duplicateFree (likeTweet now db uid id).1 ∧
  duplicateFree (retweetTweet newId now db uid id).1 ∧
  duplicateFree (followUser db uid param).1.
Proof.
  intros Hdb.
  auto using duplicateFree_likeTweet, duplicateFree_retweetTweet,
    duplicateFree_followUser.
Qed.

End DuplicateFree.

(** ** Deleting a tweet *)

Section Delete.
Import Tweets.

Lemma findById_unique ts p :
  NoDup (_id <$> ts) → p ∈ ts → Mongo.findById (_id p) ts = Some p.
Proof.
  unfold Mongo.findById. induction ts as [|t ts IH]; intros Hnd Hin.
  - by apply elem_of_nil in Hin.
  - apply NoDup_cons in Hnd as [Hnotin Hnd]. simpl.
    apply elem_of_cons in Hin as [-> | Hin].
    + by rewrite decide_True.
    + rewrite decide_False.
      * specialize (IH Hnd Hin).
        destruct (list_find _ ts) as [[k y]|]; simpl in *; by simplify_eq.
      * intros Heq. apply Hnotin. rewrite Heq.
        by apply list_elem_of_fmap_2.
Qed.

(** With unique ids, deleting the document with a given [_id] removes
    exactly the documents with that id. *)
Lemma deleteOne_by_id ts i :
  NoDup (_id <$> ts) →
  Mongo.deleteOne (λ x, _id x = i) ts = filter (λ x, _id x ≠ i) ts.
Proof.
  induction ts as [|t ts IH]; intros Hnd; [done|].
  apply NoDup_cons in Hnd as [Hnotin Hnd]. simpl.
  rewrite filter_cons. destruct (decide (_id t = i)) as [Heq | Hne].
  - rewrite decide_False by tauto. symmetry.
    clear IH Hnd. induction ts as [|t' ts IH]; [done|].
    change (_id t ∉ _id t' :: (_id <$> ts)) in Hnotin.
    apply not_elem_of_cons in Hnotin as [Hne Hnotin].
    rewrite filter_cons, decide_True by congruence. f_equal. auto.
  - rewrite decide_True by done. f_equal. auto.
Qed.

(** C4.  When the actor owns the stored tweet [p] (ids in the collection
    being unique), DELETE answers "Tweet deleted" and the collection that
    remains is the old one, in its order and unmodified, without [p] and
    without the tweets whose [replyTo] is [p]'s id.  So a tweet stays
    exactly when it is neither [p] nor a direct reply to [p]: retweet
    wrappers pointing at [p] stay, and so do replies to replies of [p]. *)
Theorem deleteTweet_cascade (db : Db) (actor : ObjectId) (p : Tweet) :
  NoDup (_id <$> tweets db) → p ∈ tweets db → user p = actor →
  (deleteTweet db actor (_id p)).2 = Json "Tweet deleted" ∧
  users (deleteTweet db actor (_id p)).1 = users db ∧
  tweets (deleteTweet db actor (_id p)).1
    = filter (λ q, _id q ≠ _id p ∧ replyTo q ≠ Some (_id p)) (tweets db) ∧
  (∀ q, q ∈ tweets (deleteTweet db actor (_id p)).1 ↔
          q ∈ tweets db ∧ _id q ≠ _id p ∧ replyTo q ≠ Some (_id p)) ∧
  (∀ w, w ∈ tweets db → retweetData w = Some (_id p) → _id w ≠ _id p →
          replyTo w = None → w ∈ tweets (deleteTweet db actor (_id p)).1) ∧
  (∀ r g, r ∈ tweets db → g ∈ tweets db → replyTo r = Some (_id p) →
          replyTo g = Some (_id r) → _id r ≠ _id p → _id g ≠ _id p →
          g ∈ tweets (deleteTweet db actor (_id p)).1).
Proof.
  intros Hnd Hin Hown.
  assert (tweets (deleteTweet db actor (_id p)).1
    = filter (λ q, _id q ≠ _id p ∧ replyTo q ≠ Some (_id p)) (tweets db)
    ∧ (deleteTweet db actor (_id p)).2 = Json "Tweet deleted"
    ∧ users (deleteTweet db actor (_id p)).1 = users db) as (Hts & Hres & Hus).
  { unfold deleteTweet. rewrite (findById_unique _ _ Hnd Hin).
    rewrite decide_False by (intros Hne; by apply Hne). simpl.
    split; [|done]. unfold Mongo.deleteMany.
    rewrite (deleteOne_by_id _ _ Hnd), list_filter_filter.
    apply list_filter_iff. tauto. }
  assert (∀ q, q ∈ tweets (deleteTweet db actor (_id p)).1 ↔
            q ∈ tweets db ∧ _id q ≠ _id p ∧ replyTo q ≠ Some (_id p)) as Hiff.
  { intros q. rewrite Hts, list_elem_of_filter. tauto. }
  split_and!; try done.
  - intros w Hw Hrt Hne Hrep. apply Hiff. rewrite Hrep. done.
  - intros r g Hr Hg Hrp Hgr Hnr Hng. apply Hiff. split_and!; try done.
    rewrite Hgr. intros [= Heq]. done.
Qed.

End Delete.

(** ** Retweet toggle and tweet creation against the schema *)

Section Retweet.
Import Tweets.

(** A wrapper built by the retweet handler has no [content], so the
    [required] validator rejects it. *)
Lemma retweet_wrapper_invalid uid id :
  TweetSchema.validate (TweetSchema.mkData (Some uid) None None (Some id) None)
  = None.
Proof. done. Qed.

Lemma findById_updateById id f ts t :
  (∀ x, _id (f x) = _id x) →
  Mongo.findById id ts = Some t →
  Mongo.findById id (Mongo.updateById id f ts) = Some (f t).
Proof.
  intros Hf. unfold Mongo.findById.
  induction ts as [|x ts IH]; simpl; [done|].
  destruct (decide (_id x = id)) as [Heq | Hne]; simpl.
  - intros [= ->]. by rewrite decide_True by (by rewrite Hf).
  - rewrite decide_False by done.
    destruct (list_find _ ts) as [[k y]|]; simpl; [|done].
    intros [= ->]. specialize (IH eq_refl).
    destruct (list_find _ (Mongo.updateById id f ts)) as [[k' y']|];
      simpl in *; by simplify_eq.
Qed.

Lemma wrappers_updateById uid id i now f ts :
  length (wrappers uid id (Mongo.updateById i (setRetweets now f) ts))
  = length (wrappers uid id ts).
Proof.
  unfold wrappers. induction ts as [|x ts IH]; simpl; [done|].
  case_decide; rewrite !filter_cons; simpl;
    destruct (decide (user x = uid ∧ retweetData x = Some id)); simpl; auto.
Qed.

(** C1.  What the handler does in the adding direction: for a stored tweet
    that [uid] has not retweeted, [uid] is added to its [retweets], but the
    wrapper fails schema validation on [save] ([content] is [required]), so
    the request is answered 500 "Server error" and the number of wrappers
    with author [uid] and [retweetData] = [id] is what it was before.  The
    claim expects exactly one such wrapper to exist after the request. *)
Theorem retweet_adding_stores_no_wrapper
    (newId : ObjectId) (now : N) (db : Db) (uid id : ObjectId) (t : Tweet) :
  Mongo.findById id (tweets db) = Some t → uid ∉ retweets t →
  (retweetTweet newId now db uid id).2 = server_error ∧
  length (wrappers uid id (tweets (retweetTweet newId now db uid id).1))
    = length (wrappers uid id (tweets db)) ∧
  ∃ t', Mongo.findById id (tweets (retweetTweet newId now db uid id).1)
          = Some t' ∧ uid ∈ retweets t'.
Proof.
  intros Hfind Hnot. unfold retweetTweet. rewrite Hfind.
  rewrite decide_False by done.
  unfold TweetSchema.save. rewrite retweet_wrapper_invalid. simpl.
  split_and!; [done | apply wrappers_updateById |].
  eexists. split; [by apply findById_updateById|]. simpl.
  apply elem_of_addToSet. by left.
Qed.

(** The removing direction: [uid] leaves [retweets] and one wrapper, if
    there is any, is deleted. *)
Lemma retweet_removing newId now db uid id t :
  Mongo.findById id (tweets db) = Some t → uid ∈ retweets t →
  (retweetTweet newId now db uid id).2 = Json "Tweet unretweeted" ∧
  length (wrappers uid id (tweets (retweetTweet newId now db uid id).1))
    = pred (length (wrappers uid id (tweets db))).
Proof.
  intros Hfind Hin. unfold retweetTweet. rewrite Hfind.
  rewrite decide_True by done. simpl. split; [done|].
  rewrite <- (wrappers_updateById uid id id now (Mongo.pull uid) (tweets db)).
  generalize (Mongo.updateById id (setRetweets now (Mongo.pull uid)) (tweets db)).
  intros ts. unfold wrappers. induction ts as [|x ts IH]; simpl; [done|].
  rewrite filter_cons. case_decide; simpl; [done|].
  by rewrite filter_cons, decide_False.
Qed.

(** C6.  A create request with an image attached and no text passes the
    handler's own check, but the document it builds has [content: ''],
    which the schema's [required] validator rejects: nothing is stored and
    the answer is 500 "Server error", whatever the uploader returns.  The
    claim expects the tweet to be stored. *)
Theorem createTweet_image_without_text_fails
    (upload : string → option string) (newId : ObjectId) (now : N) (db : Db)
    (uid : ObjectId) (path : string) :
  createTweet upload newId now db uid None (Some path) None
    = (db, server_error) ∧
  createTweet upload newId now db uid (Some EmptyString) (Some path) None
    = (db, server_error).
Proof. unfold createTweet. simpl. destruct (upload path); done. Qed.

(** With neither text nor image the request is refused before anything is
    written. *)
Lemma createTweet_empty_rejected upload newId now db uid replyTo :
  createTweet upload newId now db uid None None replyTo
    = (db, Fail 400 "Tweet content is required").
Proof. done. Qed.

End Retweet.

(** ** Viewer-relative flags on the read paths *)

Section Flags.

Lemma decodeViewer_unbound authorization : decodeViewer None authorization = None.
Proof. unfold decodeViewer. by destruct (Js.truthy authorization). Qed.

(** C5.  In the tweets routes and in routes/users.js the identifier [jwt] is
    unbound, so [jwt.verify] throws inside the handler's inner [try] and the
    credential is dropped: the single-tweet view, the comments and the
    profile view answer every request, whatever its Authorization header,
    as they answer the anonymous one.  A bad credential therefore never
    fails the request, but neither does a good one ever set [isLiked],
    [isRetweeted] or [isFollowing] from set membership, as the claim has
    it. *)
Theorem read_paths_drop_credentials
    (db : Db) (id : ObjectId) (username : string)
    (authorization : option string) :
  Tweets.getTweet db id authorization = Tweets.getTweet db id None ∧
  Tweets.getComments db id authorization = Tweets.getComments db id None ∧
  Users.getUser db username authorization = Users.getUser db username None.
Proof.
  unfold Tweets.getTweet, Tweets.getComments, Users.getUser.
  unfold Tweets.jwt, Users.jwt. by rewrite !decodeViewer_unbound.
Qed.

(** routes/search.js does bind [jwt]: a credential that verifies sets the
    flags by membership, any other gives the documents without flags. *)
Lemma searchTweets_flags jsonwebtoken db q authorization views :
  Search.searchTweets jsonwebtoken db q authorization = Some (Json views) →
  match decodeViewer (Some jsonwebtoken) authorization with
  | Some viewer =>
      views = withInteraction viewer <$> (v_tweet <$> views)
  | None => views = plainView <$> (v_tweet <$> views)
  end.
Proof.
  unfold Search.searchTweets, Search.jwt.
  destruct (Js.truthy q); [|done].
  destruct (Regex.parse s); simpl; [|done].
  destruct (decodeViewer _ _); intros [= <-];
    rewrite <- !list_fmap_compose; apply list_fmap_ext; by intros.
Qed.

End Flags.

(** ** Sorting *)

Global Instance newer_trans : Transitive Mongo.newer.
Proof. unfold Mongo.newer. intros x y z ? ?. lia. Qed.

Global Instance newer_total : Total Mongo.newer.
Proof. unfold Mongo.newer. intros x y. lia. Qed.

Lemma sortNewestFirst_sorted ts : StronglySorted Mongo.newer (Mongo.sortNewestFirst ts).
Proof. apply StronglySorted_merge_sort; apply _. Qed.

Lemma sortNewestFirst_perm ts : Mongo.sortNewestFirst ts ≡ₚ ts.
Proof. apply merge_sort_Permutation. Qed.

(** ** The timeline *)

Section Timeline.
Import Tweets.

(** C8, as the handler has it.  For a page p ≥ 1 and a page size s ≥ 1 the
    timeline of the viewer is cut from the list of all non-reply tweets
    whose author is in the viewer's [following] or is the viewer, newest
    first: the first (p - 1) * s are skipped and at most s returned, each
    with the viewer's [isLiked] and [isRetweeted].  A page or page size that
    is missing (or not a number) takes the default 1, respectively 10. *)
Theorem getTimeline_page (db : Db) (uid : ObjectId) (me : User) (p s : Z) :
  (1 ≤ p)%Z → (1 ≤ s)%Z →
  ∃ sorted,
    sorted ≡ₚ filter (λ t, (user t ∈ following me ∨ user t = uid)
                            ∧ replyTo t = None) (tweets db) ∧
    StronglySorted Mongo.newer sorted ∧
    getTimeline db uid me (Some p) (Some s)
      = Json (withInteraction uid <$>
                take (Z.to_nat s) (drop (Z.to_nat ((p - 1) * s)) sorted)) ∧
    (∀ lim, getTimeline db uid me None lim
              = getTimeline db uid me (Some 1%Z) lim) ∧
    (∀ page, getTimeline db uid me page None
              = getTimeline db uid me page (Some 10%Z)).
Proof.
  intros Hp Hs.
  exists (Mongo.sortNewestFirst
    (filter (λ t, user t ∈ following me ++ [uid] ∧ replyTo t = None) (tweets db))).
  split_and!; try done.
  - rewrite sortNewestFirst_perm.
    erewrite list_filter_iff; [done|]. intros t.
    rewrite elem_of_app, list_elem_of_singleton. done.
  - apply sortNewestFirst_sorted.
  - unfold getTimeline.
    assert (Js.orDefault (Some p) 1 = p) as -> by (destruct p; simpl; lia).
    assert (Js.orDefault (Some s) 10 = s) as -> by (destruct s; simpl; lia).
    unfold skip, limit.
    rewrite decide_False by nia. rewrite decide_False by lia.
    by rewrite Zabs2Nat.abs_nat_nonneg by lia.
Qed.

(** C8 as stated fails for a page size of 0: [parseInt('0') || 10] is 10,
    so the request for at most 0 tweets is answered with bob's whole feed
    of two. *)
Lemma getTimeline_zero_limit_counterexample :
  ∃ views,
    getTimeline Sample.db 2 Sample.bob (Some 1%Z) (Some 0%Z) = Json views ∧
    v_tweet <$> views = [Sample.wrapper; Sample.hello] ∧
    ¬ (length views ≤ Z.to_nat 0)%nat.
Proof.
  eexists. split_and!; [vm_compute; reflexivity | reflexivity | simpl; lia].
Qed.

End Timeline.

(** ** Search *)

Section SearchTweets.

Lemma isPrefix_spec p s : isPrefix p s = true ↔ ∃ post, s = p ++ post.
Proof.
  revert s. induction p as [|a p IH]; intros s; simpl.
  - split; [by exists s | done].
  - destruct s as [|b s].
    + split; [done | by intros [post ?]].
    + rewrite andb_true_iff, bool_decide_eq_true, IH. split.
      * intros [-> [post ->]]. by exists post.
      * intros [post [= -> ->]]. eauto.
Qed.

Lemma isInfix_spec p s :
  isInfix p s = true ↔ ∃ pre post, s = pre ++ p ++ post.
Proof.
  induction s as [|b s IH]; simpl.
  - rewrite orb_false_r, isPrefix_spec. split.
    + intros [post ->]. by exists [], post.
    + intros (pre & post & Heq). destruct pre; [by exists post|done].
  - rewrite orb_true_iff, IH, isPrefix_spec. split.
    + intros [[post ->] | (pre & post & ->)];
        [by exists [], post | by exists (b :: pre), post].
    + intros ([|c pre] & post & Heq); simpl in Heq.
      * left. by exists post.
      * right. injection Heq as -> ->. by exists pre, post.
Qed.

Lemma containsCI_isInfix q s :
  containsCI q s ↔ isInfix (lowercase q) (lowercase s) = true.
Proof. unfold containsCI. by rewrite isInfix_spec. Qed.

Global Instance containsCI_dec q s : Decision (containsCI q s).
Proof.
  refine (cast_if (decide (isInfix (lowercase q) (lowercase s) = true)));
    by rewrite containsCI_isInfix.
Defined.

Lemma parse_literal q :
  literal q → Regex.parse q = Some (Regex.Lit <$> list_ascii_of_string q).
Proof.
  unfold literal. induction q as [|c q IH]; intros Hlit; [done|].
  simpl in *.
  assert (c ∉ Regex.metachars) as Hc by (apply Hlit; left).
  rewrite decide_False by (intros ->; apply Hc; vm_compute; set_solver).
  rewrite decide_False by done.
  rewrite IH; [done|]. intros c' Hc'. apply Hlit. by right.
Qed.

Lemma matchHere_literal cs s :
  Regex.matchHere (Regex.Lit <$> cs) s
  = isPrefix (Regex.lower <$> cs) (lowercase s).
Proof.
  revert s. induction cs as [|a cs IH]; intros [|c s]; try done.
  unfold lowercase. simpl. by rewrite IH.
Qed.

Lemma search_literal cs s :
  Regex.search (Regex.Lit <$> cs) s = isInfix (Regex.lower <$> cs) (lowercase s).
Proof.
  induction s as [|c s IH].
  - simpl. by rewrite (matchHere_literal cs "").
  - cbn [Regex.search]. rewrite IH, (matchHere_literal cs (String c s)). done.
Qed.

(** C7, as the handler has it.  The query is a case-insensitive regular
    expression; for a query that is not empty and has no metacharacter this
    is the case-insensitive substring test, and search answers with the
    first 20 of the list of all non-reply tweets whose content contains the
    query, newest first. *)
Theorem searchTweets_literal_query
    (jsonwebtoken : JwtVerify) (db : Db) (q : string)
    (authorization : option string) :
  q ≠ EmptyString → literal q →
  ∃ sorted views,
    sorted ≡ₚ filter (λ t, containsCI q (content t) ∧ replyTo t = None)
                     (tweets db) ∧
    StronglySorted Mongo.newer sorted ∧
    Search.searchTweets jsonwebtoken db (Some q) authorization
      = Some (Json views) ∧
    v_tweet <$> views = take 20 sorted.
Proof.
  intros Hq Hlit.
  set (p := Regex.Lit <$> list_ascii_of_string q).
  exists (Mongo.sortNewestFirst
    (filter (λ t, Regex.search p (content t) = true ∧ replyTo t = None)
            (tweets db))).
  assert (Search.searchTweets jsonwebtoken db (Some q) authorization
    = Some (match decodeViewer (Some jsonwebtoken) authorization with
            | Some viewer => Json (withInteraction viewer <$> take 20
                (Mongo.sortNewestFirst
                  (filter (λ t, Regex.search p (content t) = true
                                ∧ replyTo t = None) (tweets db))))
            | None => Json (plainView <$> take 20
                (Mongo.sortNewestFirst
                  (filter (λ t, Regex.search p (content t) = true
                                ∧ replyTo t = None) (tweets db))))
            end)) as Hrun.
  { unfold Search.searchTweets. destruct q; [done|]. simpl Js.truthy. cbv iota.
    rewrite (parse_literal _ Hlit). done. }
  assert (∀ (f : Tweet → TweetView) (l : list Tweet),
    (∀ t, v_tweet (f t) = t) → v_tweet <$> (f <$> l) = l) as Hview.
  { intros f l Hf. rewrite <- list_fmap_compose.
    rewrite <- (list_fmap_id l) at 2. apply list_fmap_ext. intros ? ? _. apply Hf. }
  destruct (decodeViewer (Some jsonwebtoken) authorization) as [viewer|];
    eexists; (split_and!; [| apply sortNewestFirst_sorted | exact Hrun
                            | by apply Hview]);
    rewrite sortNewestFirst_perm;
    (erewrite list_filter_iff; [done|]); intros t; unfold p;
    by rewrite search_literal, containsCI_isInfix.
Qed.

(** C7 as stated fails for a query with a metacharacter: [.] finds
    "hello", which does not contain a full stop. *)
Lemma searchTweets_wildcard_counterexample :
  Search.searchTweets Sample.verify Sample.db (Some ".") None
    = Some (Json [plainView Sample.hello]) ∧
  ¬ containsCI "." (content Sample.hello).
Proof.
  split; [vm_compute; reflexivity|].
  rewrite containsCI_isInfix. vm_compute. discriminate.
Qed.

(** An empty query is refused. *)
Lemma searchTweets_empty_query jsonwebtoken db authorization :
  Search.searchTweets jsonwebtoken db (Some EmptyString) authorization
    = Some (Fail 400 "Search query is required").
Proof. done. Qed.

End SearchTweets.

(** ** The statements at the sample database *)

Section SampleFacts.
Import Sample.

Lemma sample_users_inv a u :
  users db !! a = Some u → (a = 1 ∧ u = alice) ∨ (a = 2 ∧ u = bob).
Proof.
  unfold db. simpl. rewrite lookup_insert_Some, lookup_insert_Some, lookup_empty.
  naive_solver.
Qed.

Lemma sample_symmetric : symmetric db.
Proof.
  intros a b ua ub Ha Hb.
  destruct (sample_users_inv _ _ Ha) as [[-> ->] | [-> ->]];
    destruct (sample_users_inv _ _ Hb) as [[-> ->] | [-> ->]];
    simpl; set_solver.
Qed.

Lemma sample_noSelfFollow : noSelfFollow db.
Proof.
  intros a ua Ha.
  destruct (sample_users_inv _ _ Ha) as [[-> ->] | [-> ->]]; simpl; set_solver.
Qed.

Lemma sample_duplicateFree : duplicateFree db.
Proof.
  split.
  - intros t Ht. unfold db in Ht. simpl in Ht.
    repeat (apply elem_of_cons in Ht as [-> | Ht]);
      [..|by apply elem_of_nil in Ht]; simpl;
      split; repeat constructor; set_solver.
  - intros i u Hu.
    destruct (sample_users_inv _ _ Hu) as [[-> ->] | [-> ->]]; simpl;
      split; repeat constructor; set_solver.
Qed.

Lemma sample_ids_unique : NoDup (_id <$> tweets db).
Proof. simpl. repeat constructor; set_solver. Qed.

Lemma sample_literal : literal "hello".
Proof.
  intros c Hc. simpl in Hc.
  repeat (apply elem_of_cons in Hc as [-> | Hc]);
    [..|by apply elem_of_nil in Hc]; vm_compute; set_solver.
Qed.

End SampleFacts.

(** bob has liked and retweeted "hello"; the single-tweet view, asked with
    bob's token, says he has not, while search says he has. *)
Example getTweet_with_bobs_token :
  2 ∈ likes Sample.hello ∧
  Tweets.getTweet Sample.db 10 (Some "Bearer bob-token")
    = Json (mkView Sample.hello (Some false) (Some false)) ∧
  Search.searchTweets Sample.verify Sample.db (Some "hello")
      (Some "Bearer bob-token")
    = Some (Json [mkView Sample.hello (Some true) (Some true)]).
Proof. split; [by left|]. split; vm_compute; reflexivity. Qed.

(** alice retweets her own "hello": she is added to [retweets], no
    wrapper is stored, the answer is 500. *)
Example retweet_by_alice :
  Tweets.retweetTweet 14 140 Sample.db 1 10
  = (mkDb (users Sample.db)
       [mkTweet 10 1 "hello" None [2] [2; 1] None None 100 140;
        Sample.reply; Sample.nested; Sample.wrapper],
     server_error).
Proof. reflexivity. Qed.

(** bob's second retweet request removes him from [retweets] and deletes
    his wrapper. *)
Example unretweet_by_bob :
  Tweets.retweetTweet 14 140 Sample.db 2 10
  = (mkDb (users Sample.db)
       [mkTweet 10 1 "hello" None [2] [] None None 100 140;
        Sample.reply; Sample.nested],
     Json "Tweet unretweeted").
Proof. reflexivity. Qed.

(** A tweet with text is stored; a picture without text is not. *)
Example createTweet_text_and_image_only :
  (∃ t, Tweets.createTweet (λ _, Some "https://img") 14 140 Sample.db 1
          (Some " good morning ") None None
        = (mkDb (users Sample.db) (tweets Sample.db ++ [t]),
           Json (mkView t (Some false) (Some false)))
        ∧ content t = "good morning") ∧
  Tweets.createTweet (λ _, Some "https://img") 14 140 Sample.db 1
    None (Some "/tmp/upload.png") None
  = (Sample.db, server_error).
Proof. split; [eexists; split; reflexivity | reflexivity]. Qed.

(** Deleting "hello" takes bob's reply with it; alice's reply to the reply
    and bob's wrapper stay. *)
Example delete_hello :
  Tweets.deleteTweet Sample.db 1 10
  = (mkDb (users Sample.db) [Sample.nested; Sample.wrapper],
     Json "Tweet deleted").
Proof. reflexivity. Qed.

Lemma toggles_keep_duplicate_free_witness :
  duplicateFree Sample.db ∧
  duplicateFree (Tweets.likeTweet 140 Sample.db 1 10).1 ∧
  duplicateFree (Tweets.retweetTweet 14 140 Sample.db 1 10).1 ∧
  duplicateFree (Users.followUser Sample.db 1 "000000000000000000000002").1.
Proof.
  split; [apply sample_duplicateFree|].
  apply (toggles_keep_duplicate_free Sample.db 1 10 14 140
           "000000000000000000000002").
  apply sample_duplicateFree.
Defined.

Lemma deleteTweet_cascade_witness :
  NoDup (_id <$> tweets Sample.db) ∧ Sample.hello ∈ tweets Sample.db ∧
  user Sample.hello = 1 ∧
  tweets (Tweets.deleteTweet Sample.db 1 10).1
    = filter (λ q, _id q ≠ 10 ∧ replyTo q ≠ Some 10) (tweets Sample.db).
Proof.
  split; [apply sample_ids_unique|]. split; [by left|]. split; [reflexivity|].
  apply (deleteTweet_cascade Sample.db 1 Sample.hello);
    [apply sample_ids_unique | by left | reflexivity].
Defined.

Lemma retweet_adding_stores_no_wrapper_witness :
  Mongo.findById 10 (tweets Sample.db) = Some Sample.hello ∧
  (1 ∉ retweets Sample.hello) ∧
  (Tweets.retweetTweet 14 140 Sample.db 1 10).2 = server_error ∧
  length (wrappers 1 10 (tweets (Tweets.retweetTweet 14 140 Sample.db 1 10).1))
    = length (wrappers 1 10 (tweets Sample.db)).
Proof.
  assert (1 ∉ retweets Sample.hello) as Hnot by (simpl; set_solver).
  split; [reflexivity|]. split; [exact Hnot|].
  destruct (retweet_adding_stores_no_wrapper 14 140 Sample.db 1 10 Sample.hello
              eq_refl Hnot) as (Hres & Hlen & _).
  split; [exact Hres | exact Hlen].
Defined.

Lemma getTimeline_page_witness :
  (1 ≤ 1)%Z ∧ (1 ≤ 1)%Z ∧
  ∃ sorted,
    StronglySorted Mongo.newer sorted ∧
    Tweets.getTimeline Sample.db 2 Sample.bob (Some 1%Z) (Some 1%Z)
      = Json (withInteraction 2 <$> take 1 (drop 0 sorted)).
Proof.
  split; [lia|]. split; [lia|].
  destruct (getTimeline_page Sample.db 2 Sample.bob 1 1 ltac:(lia) ltac:(lia))
    as (sorted & _ & Hsorted & Hrun & _).
  exists sorted. split; [exact Hsorted | exact Hrun].
Defined.

Lemma searchTweets_literal_query_witness :
  "hello" ≠ EmptyString ∧ literal "hello" ∧
  ∃ sorted views,
    StronglySorted Mongo.newer sorted ∧
    Search.searchTweets Sample.verify Sample.db (Some "hello") None
      = Some (Json views) ∧
    v_tweet <$> views = take 20 sorted.
Proof.
  split; [done|]. split; [apply sample_literal|].
  destruct (searchTweets_literal_query Sample.verify Sample.db "hello" None
              ltac:(done) sample_literal)
    as (sorted & views & _ & Hsorted & Hrun & Hviews).
  exists sorted, views. split_and!; [exact Hsorted | exact Hrun | exact Hviews].
Defined.

(** * Further properties of the handlers *)

(** ** Looking up and updating by id *)

Lemma findById_cons i x ts :
  Mongo.findById i (x :: ts)
  = if decide (_id x = i) then Some x else Mongo.findById i ts.
Proof.
  unfold Mongo.findById. simpl. case_decide; [done|].
  by destruct (list_find _ ts) as [[k y]|].
Qed.

Lemma findById_Some i ts t :
  Mongo.findById i ts = Some t → t ∈ ts ∧ _id t = i.
Proof.
  induction ts as [|x ts IH]; [done|]. rewrite findById_cons.
  case_decide.
  - intros [= ->]. split; [by left | done].
  - intros Hfind. destruct (IH Hfind). split; [by right | done].
Qed.

Lemma findById_None i ts :
  Mongo.findById i ts = None ↔ ∀ t, t ∈ ts → _id t ≠ i.
Proof.
  induction ts as [|x ts IH]; [split; [by intros _ t ?%elem_of_nil | done]|].
  rewrite findById_cons. case_decide as Hx.
  - split; [done|]. intros Hall. destruct (Hall x); [by left | done].
  - rewrite IH. split.
    + intros Hall t [-> | ?]%elem_of_cons; auto.
    + intros Hall t Ht. apply Hall. by right.
Qed.

Lemma updateById_missing i f ts :
  Mongo.findById i ts = None → Mongo.updateById i f ts = ts.
Proof.
  induction ts as [|x ts IH]; [done|]. rewrite findById_cons. simpl.
  case_decide; [done|]. intros Hnone. by rewrite IH.
Qed.

(** Only the document that [findById] returns is touched. *)
Lemma updateById_Forall2 (R : Tweet → Tweet → Prop) i f ts :
  (∀ x, R x x) →
  (∀ t, Mongo.findById i ts = Some t → R t (f t)) →
  Forall2 R ts (Mongo.updateById i f ts).
Proof.
  intros Hrefl. induction ts as [|x ts IH]; [constructor|].
  rewrite findById_cons. simpl. case_decide; intros Hf.
  - constructor; [by apply Hf | by apply Forall_Forall2_diag, Forall_forall].
  - constructor; [done | by apply IH].
Qed.

Lemma updateById_compose i f g ts :
  (∀ x, _id (f x) = _id x) →
  Mongo.updateById i g (Mongo.updateById i f ts)
  = Mongo.updateById i (g ∘ f) ts.
Proof.
  intros Hf. induction ts as [|x ts IH]; [done|]. simpl.
  case_decide as Hx; simpl.
  - by rewrite decide_True by (by rewrite Hf).
  - rewrite decide_False by done. by rewrite IH.
Qed.

(** ** The like toggle *)

Section Like.
Import Tweets.

(** The tweets after a like request on a stored tweet. *)
Lemma likeTweet_tweets now db uid id t :
  Mongo.findById id (tweets db) = Some t →
  tweets (likeTweet now db uid id).1
  = Mongo.updateById id
      (setLikes now (if decide (uid ∈ likes t) then Mongo.pull uid
                 else Mongo.addToSet uid)) (tweets db).
Proof. intros Hfind. unfold likeTweet. rewrite Hfind. by case_decide. Qed.

Lemma likeTweet_users now db uid id : users (likeTweet now db uid id).1 = users db.
Proof. unfold likeTweet. repeat case_match; done. Qed.

Lemma likeTweet_missing now db uid id :
  Mongo.findById id (tweets db) = None →
  likeTweet now db uid id = (db, Fail 404 "Tweet not found").
Proof. intros Hfind. unfold likeTweet. by rewrite Hfind. Qed.

Lemma sameButLikes_refl t : sameButLikes t t.
Proof. by repeat split. Qed.

(** X1.  A like request on a stored tweet flips the membership of the actor
    in that tweet's [likes] and of nobody else, sets its [updatedAt] to the
    time of the request, and leaves its other fields as they were. *)
Theorem likeTweet_flips_actor
    (now : N) (db : Db) (uid id : ObjectId) (t : Tweet) :
  Mongo.findById id (tweets db) = Some t →
  ∃ t', Mongo.findById id (tweets (likeTweet now db uid id).1) = Some t' ∧
        sameButLikes t t' ∧ updatedAt t' = now ∧
        (uid ∈ likes t' ↔ uid ∉ likes t) ∧
        (∀ v, v ≠ uid → v ∈ likes t' ↔ v ∈ likes t).
Proof.
  intros Hfind. rewrite (likeTweet_tweets _ _ _ _ _ Hfind).
  eexists. split; [by apply findById_updateById|].
  split; [by repeat split|]. split; [done|]. simpl.
  destruct (decide (uid ∈ likes t)) as [Hin | Hin].
  - split; [rewrite elem_of_pull; tauto|].
    intros v Hv. rewrite elem_of_pull. tauto.
  - split; [rewrite elem_of_addToSet; tauto|].
    intros v Hv. rewrite elem_of_addToSet. tauto.
Qed.

(** X2.  A like request never adds, removes or reorders tweets and never
    touches the users: tweet by tweet the collection is what it was, up to
    the [likes] and the [updatedAt] of tweets with the requested id. *)
Theorem likeTweet_frame (now : N) (db : Db) (uid id : ObjectId) :
  users (likeTweet now db uid id).1 = users db ∧
  Forall2 (λ a b, sameButLikes a b ∧ (_id a ≠ id → a = b))
          (tweets db) (tweets (likeTweet now db uid id).1).
Proof.
  split; [apply likeTweet_users|].
  assert (∀ x, sameButLikes x x ∧ (_id x ≠ id → x = x)) as Hrefl
    by (intros x; split; [apply sameButLikes_refl | done]).
  destruct (Mongo.findById id (tweets db)) as [t|] eqn:Hfind.
  - rewrite (likeTweet_tweets _ _ _ _ _ Hfind).
    apply updateById_Forall2; [done|].
    intros t0 [_ Hid]%findById_Some. split; [by repeat split|]. by intros [].
  - rewrite likeTweet_missing by done. simpl.
    by apply Forall_Forall2_diag, Forall_forall.
Qed.

(** X3.  Two like requests in a row by the same user on the same tweet
    leave every tweet with the set of likers it had; nothing but the
    [likes] array and the [updatedAt] of the tweets with that id can
    differ from before. *)
Theorem likeTweet_twice (now now' : N) (db : Db) (uid id : ObjectId) :
  users (likeTweet now' (likeTweet now db uid id).1 uid id).1 = users db ∧
  Forall2 (λ a b, sameButLikes a b ∧ (_id a ≠ id → a = b) ∧
                  (list_to_set (likes a) : gset ObjectId) = list_to_set (likes b))
          (tweets db)
          (tweets (likeTweet now' (likeTweet now db uid id).1 uid id).1).
Proof.
  split; [by rewrite !likeTweet_users|].
  assert (∀ x, sameButLikes x x ∧ (_id x ≠ id → x = x) ∧
               (list_to_set (likes x) : gset ObjectId) = list_to_set (likes x))
    as Hrefl by (intros x; split; [apply sameButLikes_refl | done]).
  destruct (Mongo.findById id (tweets db)) as [t|] eqn:Hfind.
  - set (op1 := if decide (uid ∈ likes t) then Mongo.pull uid
                else Mongo.addToSet uid).
    assert (Mongo.findById id (tweets (likeTweet now db uid id).1)
            = Some (setLikes now op1 t)) as Hfind1.
    { rewrite (likeTweet_tweets _ _ _ _ _ Hfind).
      by apply findById_updateById. }
    rewrite (likeTweet_tweets _ _ _ _ _ Hfind1),
      (likeTweet_tweets _ _ _ _ _ Hfind).
    rewrite updateById_compose by done.
    apply updateById_Forall2; [done|].
    intros t0 Ht0. rewrite Hfind in Ht0. injection Ht0 as <-.
    pose proof (findById_Some _ _ _ Hfind) as [_ Hid].
    split; [by repeat split|]. split; [by intros []|]. simpl. unfold op1.
    destruct (decide (uid ∈ likes t)) as [Hin | Hin].
    + rewrite decide_False by (rewrite elem_of_pull; tauto).
      symmetry. by apply addToSet_pull_set.
    + rewrite decide_True by (rewrite elem_of_addToSet; tauto).
      symmetry. by apply pull_addToSet_set.
  - rewrite !likeTweet_missing by (by rewrite ?likeTweet_missing).
    simpl. by apply Forall_Forall2_diag, Forall_forall.
Qed.

End Like.

(** ** Requests that name no stored tweet, and what a delete may remove *)

Section Errors.
Import Tweets.

Lemma deleteOne_sublist (P : Tweet → Prop) `{∀ t, Decision (P t)} ts :
  Mongo.deleteOne P ts `sublist_of` ts.
Proof.
  induction ts as [|x ts IH]; simpl; [done|].
  case_decide; [by apply sublist_cons | by apply sublist_skip].
Qed.

(** Deleting by the id of the document [findById] returned removes that
    document and keeps every other. *)
Lemma deleteOne_found i ts t q :
  Mongo.findById i ts = Some t → q ∈ ts →
  q = t ∨ q ∈ Mongo.deleteOne (λ x, _id x = _id t) ts.
Proof.
  induction ts as [|x ts IH]; [done|]. rewrite findById_cons. simpl.
  destruct (decide (_id x = i)) as [Hx | Hx].
  - intros [= ->]. rewrite decide_True by done.
    intros [-> | ?]%elem_of_cons; auto.
  - intros Hfind. pose proof (findById_Some _ _ _ Hfind) as [_ Hid].
    rewrite decide_False by congruence.
    intros [-> | Hq]%elem_of_cons; [right; by left|].
    destruct (IH Hfind Hq); [by left | right; by right].
Qed.

(** X4.  When the route parameter is the id of no stored tweet, the
    single-tweet view, delete, like and retweet answer 404 "Tweet not found"
    if the parameter is an ObjectId and 500 "Server error" if it is not (the
    cast fails), and the three writing handlers leave the database as it
    was. *)
Theorem missing_tweet_not_found
    (db : Db) (uid newId : ObjectId) (now : N) (param : string)
    (authorization : option string) :
  (∀ t, t ∈ tweets db → Mongo.castId param ≠ Some (_id t)) →
  getTweetRoute db param authorization
    = match Mongo.castId param with
      | Some _ => Fail 404 "Tweet not found"
      | None => server_error
      end ∧
  deleteTweetRoute db uid param
    = (db, match Mongo.castId param with
           | Some _ => Fail 404 "Tweet not found"
           | None => server_error
           end) ∧
  likeTweetRoute now db uid param
    = (db, match Mongo.castId param with
           | Some _ => Fail 404 "Tweet not found"
           | None => server_error
           end) ∧
  retweetTweetRoute newId now db uid param
    = (db, match Mongo.castId param with
           | Some _ => Fail 404 "Tweet not found"
           | None => server_error
           end).
Proof.
  intros Hnone.
  unfold getTweetRoute, deleteTweetRoute, likeTweetRoute, retweetTweetRoute.
  destruct (Mongo.castId param) as [id|]; [|done].
  assert (Mongo.findById id (tweets db) = None) as Hfind.
  { apply findById_None. intros t Ht Hid. apply (Hnone t Ht). by rewrite Hid. }
  unfold getTweet, deleteTweet, likeTweet, retweetTweet. by rewrite Hfind.
Qed.

(** X5.  Whatever the request, a delete keeps the users and the order of
    the tweets, and a tweet that is gone afterwards was either the
    requested tweet, owned by the actor, or a reply to the requested id. *)
Theorem deleteTweet_removes_only (db : Db) (uid id : ObjectId) :
  users (deleteTweet db uid id).1 = users db ∧
  tweets (deleteTweet db uid id).1 `sublist_of` tweets db ∧
  ∀ q, q ∈ tweets db → q ∉ tweets (deleteTweet db uid id).1 →
       (_id q = id ∧ user q = uid) ∨ replyTo q = Some id.
Proof.
  unfold deleteTweet.
  destruct (Mongo.findById id (tweets db)) as [t|] eqn:Hfind; [|done].
  destruct (decide (user t ≠ uid)) as [Hne | Heq]; [done|].
  assert (user t = uid) as Hown by (by destruct (decide (user t = uid))).
  simpl. split; [done|]. split.
  - unfold Mongo.deleteMany. etrans; [apply sublist_filter|].
    apply deleteOne_sublist.
  - intros q Hq Hgone. unfold Mongo.deleteMany in Hgone.
    rewrite list_elem_of_filter in Hgone.
    destruct (decide (replyTo q = Some id)) as [Hr | Hr]; [by right|].
    left. destruct (deleteOne_found _ _ _ _ Hfind Hq) as [-> | Hkept].
    + by destruct (findById_Some _ _ _ Hfind).
    + tauto.
Qed.

(** X6.  The retweet handler never stores a tweet: whatever the request,
    the answer is not "Tweet retweeted", the collection does not grow, and
    the users are untouched. *)
Theorem retweetTweet_never_stores
    (newId : ObjectId) (now : N) (db : Db) (uid id : ObjectId) :
  (retweetTweet newId now db uid id).2 ≠ Json "Tweet retweeted" ∧
  (length (tweets (retweetTweet newId now db uid id).1)
     ≤ length (tweets db))%nat ∧
  users (retweetTweet newId now db uid id).1 = users db.
Proof.
  unfold retweetTweet.
  destruct (Mongo.findById id (tweets db)) as [t|]; [|done].
  assert (∀ f, length (Mongo.updateById id f (tweets db))
               = length (tweets db)) as Hlen.
  { intros f. induction (tweets db) as [|x ts IH]; simpl; [done|].
    case_decide; simpl; by rewrite ?IH. }
  case_decide.
  - simpl. split; [done|]. split; [|done].
    etrans; [apply sublist_length, deleteOne_sublist|]. by rewrite Hlen.
  - unfold TweetSchema.save. rewrite retweet_wrapper_invalid. simpl.
    split; [done|]. by rewrite Hlen.
Qed.

End Errors.

(** ** The schema and tweet creation *)

Section Create.
Import Tweets.

Lemma validate_Some d u c :
  TweetSchema.validate d = Some (u, c) →
  TweetSchema.d_user d = Some u ∧
  ∃ raw, TweetSchema.d_content d = Some raw ∧ c = Js.trim raw ∧
         c ≠ EmptyString ∧ (String.length c ≤ 280)%nat.
Proof.
  unfold TweetSchema.validate, TweetSchema.requiredString, TweetSchema.maxlength.
  destruct (TweetSchema.d_user d) as [u0|]; simpl; [|done].
  destruct (TweetSchema.d_content d) as [raw|]; simpl; [|done].
  destruct (decide (Js.trim raw = EmptyString)); simpl; [done|].
  destruct (decide (String.length (Js.trim raw) ≤ 280)%nat); simpl; [|done].
  intros [= <- <-]. split; [done|]. by exists raw.
Qed.

(** X8.  A create request that is answered with a tweet has stored exactly
    that tweet, at the end of the collection: it carries the text with the
    white space of [Js.isWhiteSpace] (NO-BREAK SPACE included) trimmed from
    both ends, which is not empty and at most 280 code units long, the
    actor as author, the time of the request as [createdAt] and
    [updatedAt], no likes and no retweets, and a parent that was stored if
    it is a reply.  Texts are Latin-1, one character per code unit, as in
    [Js]. *)
Theorem createTweet_stored
    (upload : string → option string) (newId : ObjectId) (now : N) (db db' : Db)
    (uid : ObjectId) (text file : option string) (parent : option ObjectId)
    (v : TweetView) :
  createTweet upload newId now db uid text file parent = (db', Json v) →
  db' = mkDb (users db) (tweets db ++ [v_tweet v]) ∧
  (∃ raw, text = Some raw ∧ content (v_tweet v) = Js.trim raw) ∧
  content (v_tweet v) ≠ EmptyString ∧
  (String.length (content (v_tweet v)) ≤ 280)%nat ∧
  _id (v_tweet v) = newId ∧ user (v_tweet v) = uid ∧
  createdAt (v_tweet v) = now ∧ updatedAt (v_tweet v) = now ∧
  likes (v_tweet v) = [] ∧ retweets (v_tweet v) = [] ∧
  retweetData (v_tweet v) = None ∧ replyTo (v_tweet v) = parent ∧
  (∀ i, parent = Some i → is_Some (Mongo.findById i (tweets db))) ∧
  isLiked v = Some false ∧ isRetweeted v = Some false.
Proof.
  unfold createTweet. intros Hrun.
  assert (∃ url,
    (if match parent with
        | Some i => bool_decide (Mongo.findById i (tweets db) = None)
        | None => false
        end
     then (db, Fail 404 "Tweet to reply to not found")
     else match TweetSchema.save newId now
                  (TweetSchema.mkData (Some uid)
                     (Some (default EmptyString (Js.truthy text)))
                     (Some url) None parent) (tweets db) with
          | Some (t, ts) =>
              (setTweets db ts, Json (mkView t (Some false) (Some false)))
          | None => (db, server_error)
          end) = (db', Json v)) as [url Hrun'].
  { destruct (Js.truthy text), file as [path|]; try done;
      try (destruct (upload path) as [url|]; [by exists url | done]);
      by exists EmptyString. }
  clear Hrun.
  destruct (match parent with Some _ => _ | None => _ end) eqn:Hparent; [done|].
  unfold TweetSchema.save in Hrun'.
  destruct (TweetSchema.validate _) as [[u c]|] eqn:Hval; simpl in Hrun'; [|done].
  apply validate_Some in Hval as ([= <-] & raw & [= Hraw] & -> & Hne & Hlen).
  injection Hrun' as <- <-. simpl.
  assert (text = Some raw) as ->.
  { destruct text as [[|a s]|]; simpl in *; subst; try done.
    all: by destruct Hne. }
  split_and!; try done; [by exists raw|].
  intros i ->. apply bool_decide_eq_false in Hparent.
  by destruct (Mongo.findById i (tweets db)).
Qed.

(** X9.  A create request that is refused, for whatever reason, has written
    nothing. *)
Theorem createTweet_refused_unchanged
    (upload : string → option string) (newId : ObjectId) (now : N) (db : Db)
    (uid : ObjectId) (text file : option string) (parent : option ObjectId) :
  match (createTweet upload newId now db uid text file parent).2 with
  | Fail _ _ => (createTweet upload newId now db uid text file parent).1 = db
  | Json _ => True
  end.
Proof.
  unfold createTweet.
  assert (∀ d : TweetSchema.Data,
    match (if match parent with
              | Some i => bool_decide (Mongo.findById i (tweets db) = None)
              | None => false
              end
           then (db, Fail 404 "Tweet to reply to not found")
           else match TweetSchema.save newId now d (tweets db) with
                | Some (t, ts) =>
                    (setTweets db ts,
                     Json (mkView t (Some false) (Some false)))
                | None => (db, server_error)
                end).2 with
    | Fail _ _ =>
        (if match parent with
            | Some i => bool_decide (Mongo.findById i (tweets db) = None)
            | None => false
            end
         then (db, Fail 404 "Tweet to reply to not found")
         else match TweetSchema.save newId now d (tweets db) with
              | Some (t, ts) =>
                  (setTweets db ts,
                   Json (mkView t (Some false) (Some false)))
              | None => (db, server_error)
              end).1 = db
    | Json _ => True
    end) as Hrest.
  { intros d. destruct (match parent with Some _ => _ | None => _ end); [done|].
    by destruct (TweetSchema.save newId now d (tweets db)) as [[t ts]|]. }
  destruct (Js.truthy text) as [c|], file as [path|]; try done;
    try (destruct (upload path) as [url|]; [|done]); apply Hrest.
Qed.

(** X10.  A create request without a file is accepted whenever its text
    (Latin-1, one character per code unit, as in [Js]), once trimmed of the
    white space of [Js.isWhiteSpace], is not empty and has at most 280 code
    units, and the parent, if one is named, is stored. *)
Theorem createTweet_accepts
    (upload : string → option string) (newId : ObjectId) (now : N) (db : Db)
    (uid : ObjectId) (raw : string) (parent : option ObjectId) :
  Js.trim raw ≠ EmptyString → (String.length (Js.trim raw) ≤ 280)%nat →
  (∀ i, parent = Some i → is_Some (Mongo.findById i (tweets db))) →
  let t := mkTweet newId uid (Js.trim raw) (Some EmptyString) [] [] None
                   parent now now in
  createTweet upload newId now db uid (Some raw) None parent
  = (mkDb (users db) (tweets db ++ [t]),
     Json (mkView t (Some false) (Some false))).
Proof.
  intros Hne Hlen Hparent t. unfold createTweet.
  assert (Js.truthy (Some raw) = Some raw) as ->.
  { destruct raw; [by destruct Hne | done]. }
  assert (match parent with
          | Some i => bool_decide (Mongo.findById i (tweets db) = None)
          | None => false
          end = false) as ->.
  { destruct parent as [i|]; [|done]. apply bool_decide_eq_false.
    destruct (Hparent i eq_refl) as [p Hp]. by rewrite Hp. }
  unfold TweetSchema.save, TweetSchema.validate. simpl.
  unfold TweetSchema.requiredString. rewrite decide_False by done. simpl.
  unfold TweetSchema.maxlength. by rewrite decide_True by done.
Qed.

End Create.

(** ** Invariants of the tweet collection *)

Section StoreInvariants.
Import Tweets.

Lemma updateById_ids i f ts :
  (∀ x, _id (f x) = _id x) →
  _id <$> Mongo.updateById i f ts = _id <$> ts.
Proof.
  intros Hf. induction ts as [|x ts IH]; [done|]. simpl.
  case_decide; rewrite !fmap_cons; by rewrite ?Hf, ?IH.
Qed.

(** What a create request can do to the database. *)
Lemma createTweet_cases upload newId now db uid text file parent :
  (createTweet upload newId now db uid text file parent).1 = db ∨
  ∃ t, (createTweet upload newId now db uid text file parent).1
         = mkDb (users db) (tweets db ++ [t]) ∧
       _id t = newId ∧ content t ≠ EmptyString ∧
       (String.length (content t) ≤ 280)%nat.
Proof.
  unfold createTweet.
  assert (∀ d : TweetSchema.Data,
    TweetSchema.save newId now d (tweets db) = None ∨
    ∃ t, TweetSchema.save newId now d (tweets db) = Some (t, tweets db ++ [t]) ∧
         _id t = newId ∧ content t ≠ EmptyString ∧
         (String.length (content t) ≤ 280)%nat) as Hsave.
  { intros d. unfold TweetSchema.save.
    destruct (TweetSchema.validate d) as [[u c]|] eqn:Hval; [|by left].
    right. eexists. split; [done|]. simpl.
    unfold TweetSchema.validate, TweetSchema.requiredString,
      TweetSchema.maxlength in Hval.
    destruct (TweetSchema.d_user d); simpl in Hval; [|done].
    destruct (TweetSchema.d_content d) as [raw|]; simpl in Hval; [|done].
    destruct (decide (Js.trim raw = EmptyString)); simpl in Hval; [done|].
    destruct (decide (String.length (Js.trim raw) ≤ 280)%nat);
      simpl in Hval; [|done].
    by injection Hval as <- <-. }
  assert (∀ d : TweetSchema.Data,
    let r := if match parent with
                | Some i => bool_decide (Mongo.findById i (tweets db) = None)
                | None => false
                end
             then (db, Fail 404 "Tweet to reply to not found")
             else match TweetSchema.save newId now d (tweets db) with
                  | Some (t, ts) =>
                      (setTweets db ts,
                       Json (mkView t (Some false) (Some false)))
                  | None => (db, server_error)
                  end in
    r.1 = db ∨
    ∃ t, r.1 = mkDb (users db) (tweets db ++ [t]) ∧
         _id t = newId ∧ content t ≠ EmptyString ∧
         (String.length (content t) ≤ 280)%nat) as Hrest.
  { intros d. cbv zeta.
    destruct (match parent with Some _ => _ | None => _ end); [by left|].
    destruct (Hsave d) as [-> | (t & -> & ?)]; [by left | right; by exists t]. }
  destruct (Js.truthy text) as [c|], file as [path|]; try (by left);
    try (destruct (upload path) as [url|]; [|by left]); apply Hrest.
Qed.

(** X11.  The four writing handlers of the tweets routes keep the
    collection within the schema: if every stored tweet has a text that is
    not empty and at most 280 code units long (texts being Latin-1, one
    character per code unit, as in [Js]), the same holds after a create,
    like, retweet or delete request. *)
Theorem tweet_handlers_keep_content_valid
    (upload : string → option string) (newId : ObjectId) (now : N) (db : Db)
    (uid id : ObjectId) (text file : option string) (parent : option ObjectId) :
  contentValid db →
  contentValid (createTweet upload newId now db uid text file parent).1 ∧
  contentValid (likeTweet now db uid id).1 ∧
  contentValid (retweetTweet newId now db uid id).1 ∧
  contentValid (deleteTweet db uid id).1.
Proof.
  intros Hdb. split_and!.
  - destruct (createTweet_cases upload newId now db uid text file parent)
      as [-> | (t & -> & _ & Hne & Hlen)]; [done|].
    intros q [Hq | ->%list_elem_of_singleton]%elem_of_app; [by apply Hdb | done].
  - unfold likeTweet. destruct (Mongo.findById id (tweets db)); [|done].
    case_decide; intros q [? | (x & Hx & ->)]%elem_of_updateById;
      try (by apply Hdb); by apply (Hdb x).
  - unfold retweetTweet. destruct (Mongo.findById id (tweets db)); [|done].
    case_decide.
    + intros q [? | (x & Hx & ->)]%elem_of_deleteOne%elem_of_updateById;
        [by apply Hdb | by apply (Hdb x)].
    + unfold TweetSchema.save. rewrite retweet_wrapper_invalid. simpl.
      intros q [? | (x & Hx & ->)]%elem_of_updateById;
        [by apply Hdb | by apply (Hdb x)].
  - unfold deleteTweet. destruct (Mongo.findById id (tweets db)); [|done].
    case_decide; [done|]. intros q Hq. apply Hdb. simpl in Hq.
    unfold Mongo.deleteMany in Hq. apply list_elem_of_filter in Hq as [_ Hq].
    by eapply elem_of_deleteOne.
Qed.

(** X12.  The same four handlers keep the ids of the collection unique,
    provided the id handed to a create request is not in use. *)
Theorem tweet_handlers_keep_ids_unique
    (upload : string → option string) (newId : ObjectId) (now : N) (db : Db)
    (uid id : ObjectId) (text file : option string) (parent : option ObjectId) :
  NoDup (_id <$> tweets db) → (∀ t, t ∈ tweets db → _id t ≠ newId) →
  NoDup (_id <$> tweets
           (createTweet upload newId now db uid text file parent).1) ∧
  NoDup (_id <$> tweets (likeTweet now db uid id).1) ∧
  NoDup (_id <$> tweets (retweetTweet newId now db uid id).1) ∧
  NoDup (_id <$> tweets (deleteTweet db uid id).1).
Proof.
  intros Hnd Hfresh. split_and!.
  - destruct (createTweet_cases upload newId now db uid text file parent)
      as [-> | (t & -> & Hid & _)]; [done|].
    simpl. rewrite fmap_app. apply NoDup_app. split_and!; [done | | apply NoDup_singleton].
    intros i (q & -> & Hq)%list_elem_of_fmap Heq%list_elem_of_singleton.
    apply (Hfresh q); [done | congruence].
  - unfold likeTweet. destruct (Mongo.findById id (tweets db)); [|done].
    case_decide; simpl; by rewrite updateById_ids.
  - unfold retweetTweet. destruct (Mongo.findById id (tweets db)); [|done].
    case_decide; simpl.
    + eapply sublist_NoDup; [|apply fmap_sublist, deleteOne_sublist].
      by rewrite updateById_ids.
    + by rewrite updateById_ids.
  - unfold deleteTweet. destruct (Mongo.findById id (tweets db)); [|done].
    case_decide; [done|]. simpl.
    eapply sublist_NoDup; [exact Hnd|]. apply fmap_sublist.
    unfold Mongo.deleteMany. etrans; [apply sublist_filter|].
    apply deleteOne_sublist.
Qed.

End StoreInvariants.

(** ** Reading tweets *)

Section Reads.
Import Tweets.

Lemma filter_none {A} (P : A → Prop) `{∀ x, Decision (P x)} (l : list A) :
  (∀ x, x ∈ l → ¬ P x) → filter P l = [].
Proof.
  induction l as [|x l IH]; intros Hall; [done|].
  rewrite filter_cons, decide_False by (apply Hall; by left).
  apply IH. intros y Hy. apply Hall. by right.
Qed.

Lemma elem_of_sortNewestFirst t ts : t ∈ Mongo.sortNewestFirst ts ↔ t ∈ ts.
Proof. by rewrite sortNewestFirst_perm. Qed.

(** The tweets of a timeline answer: a stretch of the sorted eligible
    tweets, no longer than the limit. *)
Lemma getTimeline_views db uid me page lim views :
  getTimeline db uid me page lim = Json views →
  ∃ l, views = withInteraction uid <$> l ∧
       l `sublist_of`
         Mongo.sortNewestFirst
           (filter (λ t, user t ∈ following me ++ [uid] ∧ replyTo t = None)
                   (tweets db)) ∧
       (length l ≤ Z.abs_nat (Js.orDefault lim 10))%nat.
Proof.
  unfold getTimeline, skip, limit. case_decide; [done|].
  intros [= <-]. eexists. split; [done|].
  assert (Js.orDefault lim 10 ≠ 0)%Z as Hlim.
  { destruct lim as [[| |]|]; simpl; lia. }
  rewrite decide_False by done. split.
  - etrans; [apply sublist_take|]. apply sublist_drop.
  - rewrite length_take. lia.
Qed.


(** X14.  The tweet list of a user is all the stored non-reply tweets of
    that author, newest first and not paginated, sent without flags. *)
Theorem getUserTweets_spec (db : Db) (userId : ObjectId)
    (authorization : option string) :
  ∃ sorted,
    sorted ≡ₚ filter (λ t, user t = userId ∧ replyTo t = None) (tweets db) ∧
    StronglySorted Mongo.newer sorted ∧
    getUserTweets db userId authorization = Json (plainView <$> sorted).
Proof.
  eexists. split_and!; [apply sortNewestFirst_perm | apply sortNewestFirst_sorted|].
  unfold getUserTweets, jwt. by rewrite decodeViewer_unbound.
Qed.


(** X16.  Once the owner has deleted a tweet (ids being unique), the
    single-tweet view of its id answers 404 and its comments are empty. *)
Theorem deleted_tweet_is_gone (db : Db) (uid : ObjectId) (p : Tweet)
    (authorization : option string) :
  NoDup (_id <$> tweets db) → p ∈ tweets db → user p = uid →
  getTweet (deleteTweet db uid (_id p)).1 (_id p) authorization
    = Fail 404 "Tweet not found" ∧
  getComments (deleteTweet db uid (_id p)).1 (_id p) authorization = Json [].
Proof.
  intros Hnd Hin Hown.
  assert (∀ q, q ∈ tweets (deleteTweet db uid (_id p)).1 →
               _id q ≠ _id p ∧ replyTo q ≠ Some (_id p)) as Hleft.
  { unfold deleteTweet. rewrite (findById_unique _ _ Hnd Hin).
    rewrite decide_False by (intros Hne; by apply Hne). simpl.
    unfold Mongo.deleteMany. rewrite (deleteOne_by_id _ _ Hnd).
    intros q [Hrep [Hid _]%list_elem_of_filter]%list_elem_of_filter. done. }
  split.
  - unfold getTweet.
    assert (Mongo.findById (_id p) (tweets (deleteTweet db uid (_id p)).1)
            = None) as ->; [|done].
    apply findById_None. intros q Hq. by apply Hleft.
  - unfold getComments, jwt. rewrite decodeViewer_unbound.
    rewrite filter_none; [done|]. intros q Hq. by apply Hleft.
Qed.

(** X17.  After a like request on a stored tweet (ids being unique), the
    actor's timeline flags that tweet, wherever it shows it, with the
    opposite of what the actor's membership in its [likes] was. *)
Theorem like_shows_in_timeline (now : N) (db : Db) (uid id : ObjectId)
    (t : Tweet) (me : User) (page lim : option Z) (views : list TweetView) :
  NoDup (_id <$> tweets db) → Mongo.findById id (tweets db) = Some t →
  getTimeline (likeTweet now db uid id).1 uid me page lim = Json views →
  Forall (λ v, _id (v_tweet v) = id →
               isLiked v = Some (bool_decide (uid ∉ likes t))) views.
Proof.
  intros Hnd Hfind (l & -> & Hsub & _)%getTimeline_views.
  set (op := if decide (uid ∈ likes t) then Mongo.pull uid
             else Mongo.addToSet uid).
  assert (tweets (likeTweet now db uid id).1
          = Mongo.updateById id (setLikes now op) (tweets db)) as Hts
    by apply (likeTweet_tweets _ _ _ _ _ Hfind).
  assert (NoDup (_id <$> tweets (likeTweet now db uid id).1)) as Hnd'
    by (by rewrite Hts, updateById_ids).
  assert (Mongo.findById id (tweets (likeTweet now db uid id).1)
          = Some (setLikes now op t)) as Hfind'
    by (rewrite Hts; by apply findById_updateById).
  apply Forall_forall. intros v (x & -> & Hx)%list_elem_of_fmap. simpl.
  intros Hid. eapply elem_of_sublist in Hx; [|exact Hsub].
  apply elem_of_sortNewestFirst, list_elem_of_filter in Hx as [_ Hx].
  pose proof (findById_unique _ _ Hnd' Hx) as Hx'.
  rewrite Hid, Hfind' in Hx'. injection Hx' as <-. simpl. f_equal.
  unfold op. destruct (decide (uid ∈ likes t)) as [Hin | Hin].
  - rewrite !bool_decide_eq_false_2; [done | tauto | rewrite elem_of_pull; tauto].
  - rewrite !bool_decide_eq_true_2; [done | done | rewrite elem_of_addToSet; tauto].
Qed.

End Reads.

(** ** The follow toggle and the users routes *)

Section UsersRoutes.
Import Users.


Lemma populateUsers_ids us ids :
  s_id <$> populateUsers us ids = filter (λ i, is_Some (us !! i)) ids.
Proof.
  unfold populateUsers. induction ids as [|i ids IH]; [done|].
  rewrite filter_cons. simpl. case_decide as Hs.
  - destruct Hs as [u Hu]. rewrite Hu. simpl. by rewrite <- IH.
  - destruct (us !! i) as [u|] eqn:Hu; [destruct Hs; eauto | done].
Qed.

(** X18.  A follow request never touches a tweet, never creates or deletes
    a user and never changes a name; the only [following] array it may
    change is the actor's, and the only [followers] array that of the user
    the route parameter is cast to. *)
Theorem followUser_frame (db : Db) (a : ObjectId) (param : string) :
  tweets (followUser db a param).1 = tweets db ∧
  dom (users (followUser db a param).1) = dom (users db) ∧
  ∀ x ux', users (followUser db a param).1 !! x = Some ux' →
    ∃ ux, users db !! x = Some ux ∧
          u_username ux' = u_username ux ∧ u_name ux' = u_name ux ∧
          (x ≠ a → following ux' = following ux) ∧
          (Mongo.castId param ≠ Some x → followers ux' = followers ux).
Proof.
  split; [apply followUser_tweets|].
  assert (∀ x ux', users db !! x = Some ux' →
    ∃ ux, users db !! x = Some ux ∧
          u_username ux' = u_username ux ∧ u_name ux' = u_name ux ∧
          (x ≠ a → following ux' = following ux) ∧
          (Mongo.castId param ≠ Some x → followers ux' = followers ux))
    as Hsame by (intros x ux' Hx; by exists ux').
  destruct (decide (param = Mongo.idString a)) as [Heq | Hne];
    [by rewrite followUser_guard by auto|].
  destruct (Mongo.castId param) as [b|] eqn:Hc;
    [|by rewrite followUser_guard by auto].
  destruct (users db !! b) as [ub|] eqn:Hb;
    [|by rewrite followUser_guard by eauto 6].
  destruct (users db !! a) as [ua|] eqn:Ha;
    [|by rewrite followUser_guard by auto].
  destruct (followUser_users db a param b ua ub Hne Hc Ha Hb)
    as (present & _ & _ & ->).
  split; [apply follow_updates_dom|].
  intros x ux' (ux & Hux & Hn1 & Hn2 & Hf & Hg)%follow_updates_lookup.
  exists ux. split_and!; try done.
  - intros Hxa. by rewrite decide_False in Hf.
  - intros Hxb. rewrite decide_False in Hg; [done|]. by intros ->.
Qed.

(** X19.  A follow request that passes the guards (the parameter is not the
    actor's id string, it is cast to a stored user, the actor is stored)
    takes its direction from a comparison of strings: if the parameter is
    the id string of a member of the actor's [following], the target is
    pulled from it and the actor from the target's [followers], with answer
    "User unfollowed"; otherwise both are added, with answer "User
    followed".  The target's [followers] plays no part in the choice. *)
Theorem followUser_effect
    (db : Db) (a : ObjectId) (param : string) (b : ObjectId) (ua ub : User) :
  param ≠ Mongo.idString a → Mongo.castId param = Some b →
  users db !! a = Some ua → users db !! b = Some ub →
  ∃ ua' ub',
    users (followUser db a param).1 !! a = Some ua' ∧
    users (followUser db a param).1 !! b = Some ub' ∧
    (b ∈ following ua' ↔ param ∉ Mongo.idString <$> following ua) ∧
    (a ∈ followers ub' ↔ param ∉ Mongo.idString <$> following ua) ∧
    (followUser db a param).2
      = Json (if decide (param ∈ Mongo.idString <$> following ua)
              then "User unfollowed" else "User followed").
Proof.
  intros Hne Hc Ha Hb.
  destruct (followUser_users db a param b ua ub Hne Hc Ha Hb)
    as (present & Hpresent & -> & Hus).
  assert (is_Some (users (followUser db a param).1 !! a)) as [ua' Ha'].
  { apply elem_of_dom. rewrite Hus, follow_updates_dom.
    apply elem_of_dom. eauto. }
  assert (is_Some (users (followUser db a param).1 !! b)) as [ub' Hb'].
  { apply elem_of_dom. rewrite Hus, follow_updates_dom.
    apply elem_of_dom. eauto. }
  exists ua', ub'. split; [done|]. split; [done|].
  rewrite Hus in Ha', Hb'.
  apply follow_updates_lookup in Ha' as (ua0 & Hua0 & _ & _ & -> & _).
  apply follow_updates_lookup in Hb' as (ub0 & Hub0 & _ & _ & _ & ->).
  rewrite !decide_True by done. simplify_eq.
  rewrite !elem_of_toggle, !decide_True by done.
  destruct present.
  - assert (param ∈ Mongo.idString <$> following ua) as Hin by by apply Hpresent.
    rewrite decide_True by done. split_and!; [split; [done | tauto].. | done].
  - assert (param ∉ Mongo.idString <$> following ua) as Hin
      by (intros Hin%Hpresent; done).
    rewrite decide_False by done. split_and!; [split; done.. | done].
Qed.


(** X21.  After a follow request that passes the guards, the actor is in
    the followers list of the user the parameter is cast to, and that user
    in the actor's following list, exactly when the parameter was not the
    id string of a member of the actor's [following]. *)
Theorem follow_shows_in_lists
    (db : Db) (a : ObjectId) (param : string) (b : ObjectId) (ua ub : User) :
  param ≠ Mongo.idString a → Mongo.castId param = Some b →
  users db !! a = Some ua → users db !! b = Some ub →
  ∃ lf lg,
    getFollowers (followUser db a param).1 b = Json lf ∧
    getFollowing (followUser db a param).1 a = Json lg ∧
    (a ∈ s_id <$> lf ↔ param ∉ Mongo.idString <$> following ua) ∧
    (b ∈ s_id <$> lg ↔ param ∉ Mongo.idString <$> following ua).
Proof.
  intros Hne Hc Ha Hb.
  destruct (followUser_users db a param b ua ub Hne Hc Ha Hb)
    as (present & Hpresent & _ & Hus).
  assert (is_Some (users (followUser db a param).1 !! a)) as [ua' Ha'].
  { apply elem_of_dom. rewrite Hus, follow_updates_dom.
    apply elem_of_dom. eauto. }
  assert (is_Some (users (followUser db a param).1 !! b)) as [ub' Hb'].
  { apply elem_of_dom. rewrite Hus, follow_updates_dom.
    apply elem_of_dom. eauto. }
  unfold getFollowers, getFollowing. rewrite Ha', Hb'.
  eexists _, _. split; [done|]. split; [done|].
  rewrite !populateUsers_ids, !list_elem_of_filter, Ha', Hb'.
  rewrite Hus in Ha', Hb'.
  apply follow_updates_lookup in Ha' as (ua0 & Hua0 & _ & _ & -> & _).
  apply follow_updates_lookup in Hb' as (ub0 & Hub0 & _ & _ & _ & ->).
  rewrite !decide_True by done. simplify_eq.
  rewrite !elem_of_toggle, !decide_True by done.
  destruct present.
  - assert (param ∈ Mongo.idString <$> following ua) as Hin by by apply Hpresent.
    split; (split; [by intros [_ ?] | tauto]).
  - assert (param ∉ Mongo.idString <$> following ua) as Hin
      by (intros Hin%Hpresent; done).
    split; (split; [done | eauto]).
Qed.

(** X22.  The suggestions are at most five distinct stored users, none of
    them the viewer or followed by the viewer, each flagged as not followed;
    when fewer than five are given, every stored user who is neither the
    viewer nor followed by the viewer is among them. *)
Theorem getSuggested_spec (db : Db) (uid : ObjectId) (me : User) :
  ∃ l, getSuggested db uid me = Json l ∧
       (length l ≤ 5)%nat ∧ NoDup (s_id <$> l) ∧
       Forall (λ s, s_id s ≠ uid ∧ (s_id s ∉ following me) ∧
                    (∃ w, users db !! s_id s = Some w ∧
                          s_username s = u_username w ∧ s_name s = u_name w) ∧
                    s_isFollowing s = Some false) l ∧
       ((length l < 5)%nat →
        ∀ i, is_Some (users db !! i) → i ≠ uid → i ∉ following me →
             i ∈ s_id <$> l).
Proof.
  unfold getSuggested. eexists. split; [done|].
  set (eligible := filter (λ iu : ObjectId * User,
                             iu.1 ≠ uid ∧ iu.1 ∉ following me)
                          (map_to_list (users db))).
  rewrite length_fmap, <- list_fmap_compose.
  change (s_id ∘ _) with (fst : ObjectId * User → ObjectId).
  split_and!.
  - rewrite length_take. lia.
  - eapply sublist_NoDup; [apply (NoDup_fst_map_to_list (users db))|].
    apply fmap_sublist. etrans; [apply sublist_take|]. apply sublist_filter.
  - apply Forall_forall. intros s ([i u] & -> & Hiu)%list_elem_of_fmap. simpl.
    eapply elem_of_sublist in Hiu; [|apply sublist_take].
    apply list_elem_of_filter in Hiu as [[? ?] Hiu%elem_of_map_to_list].
    split_and!; try done. by exists u.
  - intros Hlen i [u Hu] Hne Hnot.
    rewrite take_ge by (rewrite length_take in Hlen; lia).
    apply list_elem_of_fmap. exists (i, u). split; [done|].
    apply list_elem_of_filter. split; [done|]. by apply elem_of_map_to_list.
Qed.

(** X23.  The profile view answers 404 exactly when no stored user has the
    requested username; otherwise it shows a stored user with that
    username, the number of that user's stored non-reply tweets, and
    [isFollowing: false] whatever the Authorization header. *)
Theorem getUser_spec (db : Db) (username : string)
    (authorization : option string) :
  (getUser db username authorization = Fail 404 "User not found" ∧
   ∀ i u, users db !! i = Some u → u_username u ≠ username) ∨
  (∃ i u, users db !! i = Some u ∧ u_username u = username ∧
     getUser db username authorization
     = Json (mkProfile i u
               (length (filter (λ t, user t = i ∧ replyTo t = None)
                               (tweets db))) false)).
Proof.
  unfold getUser, findOneByUsername, jwt. rewrite decodeViewer_unbound.
  destruct (list_find _ (map_to_list (users db))) as [[k [i u]]|] eqn:Hfind;
    simpl.
  - right. apply list_find_Some in Hfind as (Hk & Hname & _).
    apply list_elem_of_lookup_2, elem_of_map_to_list in Hk.
    by exists i, u.
  - left. split; [done|]. apply list_find_None in Hfind.
    intros i u Hu. rewrite Forall_forall in Hfind.
    apply (Hfind (i, u)). by apply elem_of_map_to_list.
Qed.

End UsersRoutes.

(** ** Routing *)

Section Routing.
Import Router.

(** X24.  No request reaches the suggestions handler: its route is
    registered after [/:username], which takes every GET of one segment
    that [/me] has not taken.  GET /suggested is answered by the profile
    handler, with "suggested" as the username. *)
Theorem users_suggested_unreachable :
  (∀ m path, fst <$> dispatch usersRoutes m path ≠ Some Suggested) ∧
  (∀ seg, dispatch usersRoutes GET [seg]
          = if decide (lowercase "me" = lowercase seg) then Some (Me, [])
            else Some (GetUser, [("username", seg)])) ∧
  dispatch usersRoutes GET ["suggested"]
    = Some (GetUser, [("username", "suggested")]).
Proof.
  split_and!.
  - intros m path. unfold usersRoutes, lowercase.
    destruct m, path as [|s1 [|s2 [|s3 path]]]; simpl;
      repeat case_decide; simpl; done.
  - intros seg. unfold usersRoutes, lowercase. simpl.
    by case_decide.
  - reflexivity.
Qed.

(** X25.  Every handler of the tweets routes can be reached.  A GET of
    [/user/:userId] reaches the user's tweet list unless the user id reads
    "comments": that request is taken by [/:id/comments], registered
    earlier, with "user" as the tweet id. *)
Theorem tweets_routes_reach :
  (∀ h, ∃ m path, fst <$> dispatch tweetsRoutes m path = Some h) ∧
  (∀ userId, dispatch tweetsRoutes GET ["user"; userId]
             = if decide (lowercase "comments" = lowercase userId)
               then Some (Comments, [("id", "user")])
               else Some (UserTweets, [("userId", userId)])).
Proof.
  split.
  - intros h. destruct h;
      [ exists GET, [] | exists POST, [] | exists GET, ["1"]
      | exists DELETE, ["1"] | exists POST, ["1"; "like"]
      | exists POST, ["1"; "retweet"] | exists GET, ["1"; "comments"]
      | exists GET, ["user"; "1"] ]; reflexivity.
  - intros userId. unfold tweetsRoutes, lowercase. simpl.
    repeat case_decide; done.
Qed.

End Routing.

(** ** Credentials and search *)

Section Credentials.

Lemma startsWith_spec p s :
  Js.startsWith p s = true ↔ ∃ post, s = p +:+ post.
Proof.
  revert s. induction p as [|a p IH]; intros s; simpl.
  - split; [by exists s | done].
  - destruct s as [|b s].
    + split; [done | by intros [post ?]].
    + rewrite andb_true_iff, bool_decide_eq_true, IH. split.
      * intros [-> [post ->]]. by exists post.
      * intros [post [= -> ->]]. eauto.
Qed.

Lemma removeFirst_absent pat s :
  (∀ pre post, s ≠ pre +:+ pat +:+ post) → Js.removeFirst pat s = s.
Proof.
  induction s as [|c s IH]; intros Habs.
  - simpl. destruct (Js.startsWith pat "") eqn:Hst; [|done].
    apply startsWith_spec in Hst as [post Hpost].
    by destruct (Habs "" post).
  - cbn [Js.removeFirst].
    destruct (Js.startsWith pat (String c s)) eqn:Hst.
    + apply startsWith_spec in Hst as [post Hpost].
      by destruct (Habs "" post).
    + f_equal. apply IH. intros pre post ->.
      by destruct (Habs (String c pre) post).
Qed.

(** X26.  How a handler that can verify tokens reads the Authorization
    header: no header or an empty one is anonymous; "Bearer " followed by a
    token is that token's verdict; and a header in which "Bearer " does not
    occur is handed to the verifier whole, so the scheme is stripped but not
    required. *)
Theorem decodeViewer_spec (verify : JwtVerify) :
  decodeViewer (Some verify) None = None ∧
  decodeViewer (Some verify) (Some EmptyString) = None ∧
  (∀ token, decodeViewer (Some verify) (Some ("Bearer " +:+ token))
            = verify token) ∧
  (∀ header, header ≠ EmptyString →
     (∀ pre post, header ≠ pre +:+ "Bearer " +:+ post) →
     decodeViewer (Some verify) (Some header) = verify header).
Proof.
  split_and!; try done.
  intros header Hne Habs. unfold decodeViewer.
  assert (Js.truthy (Some header) = Some header) as ->
    by (by destruct header).
  simpl. by rewrite removeFirst_absent.
Qed.

End Credentials.

Section SearchMore.

Lemma take_sorted (ts : list Tweet) n :
  StronglySorted Mongo.newer ts → StronglySorted Mongo.newer (take n ts).
Proof.
  intros Hs. rewrite <- (take_drop n ts) in Hs.
  by apply StronglySorted_app_1_l in Hs.
Qed.

(** The tweets of a search answer, for any engine. *)
Lemma searchTweetsWith_views jsonwebtoken mongoRegex db q authorization views :
  Search.searchTweetsWith jsonwebtoken mongoRegex db q authorization
    = Json views →
  ∃ matches : string → bool,
    v_tweet <$> views
      = take 20 (Mongo.sortNewestFirst
          (filter (λ t, matches (content t) = true ∧ replyTo t = None)
                  (tweets db))) ∧
    views = match decodeViewer (Some jsonwebtoken) authorization with
            | Some viewer => withInteraction viewer <$> (v_tweet <$> views)
            | None => plainView <$> (v_tweet <$> views)
            end.
Proof.
  unfold Search.searchTweetsWith, Search.jwt.
  destruct (Js.truthy q) as [query|]; [|done].
  destruct (mongoRegex query) as [matches|]; [|done].
  intros Hrun. exists matches.
  destruct (decodeViewer _ _); injection Hrun as <-;
    rewrite <- !list_fmap_compose;
    (split; [apply list_fmap_id | apply list_fmap_ext; by intros]).
Qed.

(** On the fragment the two definitions of the tweet search agree. *)
Lemma searchTweets_fragment jsonwebtoken db q authorization r :
  Search.searchTweets jsonwebtoken db q authorization = Some r →
  Search.searchTweetsWith jsonwebtoken fragmentRegex db q authorization = r.
Proof.
  unfold Search.searchTweets, Search.searchTweetsWith, fragmentRegex.
  destruct (Js.truthy q) as [query|]; [|by intros [= <-]].
  destruct (Regex.parse query) as [p|]; simpl; [|done].
  by intros [= <-].
Qed.

(** X27.  Whatever the query and whatever the regular-expression engine
    makes of it, a tweet search that succeeds holds at most 20 tweets,
    newest first, all of them stored and none of them a reply. *)
Theorem searchTweets_sound (jsonwebtoken : JwtVerify)
    (mongoRegex : string → option (string → bool)) (db : Db)
    (q authorization : option string) (views : list TweetView) :
  Search.searchTweetsWith jsonwebtoken mongoRegex db q authorization
    = Json views →
  (length views ≤ 20)%nat ∧
  StronglySorted Mongo.newer (v_tweet <$> views) ∧
  Forall (λ v, v_tweet v ∈ tweets db ∧ replyTo (v_tweet v) = None) views.
Proof.
  intros (matches & Hviews & _)%searchTweetsWith_views. split_and!.
  - rewrite <- (length_fmap v_tweet), Hviews, length_take. lia.
  - rewrite Hviews. apply take_sorted, sortNewestFirst_sorted.
  - apply Forall_forall. intros v Hv.
    apply (list_elem_of_fmap_2 v_tweet) in Hv. rewrite Hviews in Hv.
    eapply elem_of_sublist in Hv; [|apply sublist_take].
    apply elem_of_sortNewestFirst, list_elem_of_filter in Hv as [[_ ?] ?].
    done.
Qed.

(** X28.  Whatever the query, a tweet search sent with "Bearer " and a
    token that verifies flags every tweet it returns by the membership of
    the token's user in the tweet's [likes] and [retweets]. *)
Theorem searchTweets_bearer_flags (jsonwebtoken : JwtVerify)
    (mongoRegex : string → option (string → bool)) (db : Db)
    (q : option string) (token : string) (viewer : ObjectId)
    (views : list TweetView) :
  jsonwebtoken token = Some viewer →
  Search.searchTweetsWith jsonwebtoken mongoRegex db q
      (Some ("Bearer " +:+ token)) = Json views →
  Forall (λ v, isLiked v = Some (bool_decide (viewer ∈ likes (v_tweet v))) ∧
               isRetweeted v
                 = Some (bool_decide (viewer ∈ retweets (v_tweet v)))) views.
Proof.
  intros Hverify (matches & _ & Hflags)%searchTweetsWith_views.
  change (decodeViewer (Some jsonwebtoken) (Some ("Bearer " +:+ token)))
    with (jsonwebtoken token) in Hflags.
  rewrite Hverify in Hflags. rewrite Hflags.
  apply Forall_forall. intros v (t & -> & _)%list_elem_of_fmap. done.
Qed.

End SearchMore.

Section SearchUsers.
Import Users.

(** The flag a user search puts on the user [i]. *)
Lemma searchUsers_views jsonwebtoken db q authorization views :
  Search.searchUsers jsonwebtoken db q authorization = Some (Json views) →
  ∃ p flag,
    views = (λ iu : ObjectId * User,
               mkSummary iu.1 (u_username iu.2) (u_name iu.2)
                 (Some (followers iu.2)) (flag iu.1))
            <$> take 20
                  (filter (λ iu, Regex.search p (u_name iu.2) = true
                                 ∨ Regex.search p (u_username iu.2) = true)
                          (map_to_list (users db))) ∧
    Regex.parse (default EmptyString (Js.truthy q)) = Some p ∧
    flag = λ i,
      match decodeViewer (Some jsonwebtoken) authorization with
      | Some viewer =>
          match users db !! viewer with
          | Some currentUser => Some (bool_decide (i ∈ following currentUser))
          | None => None
          end
      | None => None
      end.
Proof.
  unfold Search.searchUsers, Search.jwt.
  destruct (Js.truthy q) as [query|]; [|done]. simpl.
  destruct (Regex.parse query) as [p|]; simpl; [|done].
  intros [= <-]. exists p. eexists. split; [|split; reflexivity].
  destruct (decodeViewer _ _) as [viewer|]; [|done].
  by destruct (users db !! viewer).
Qed.

(** The summaries of a user search answer, for any engine. *)
Lemma searchUsersWith_views jsonwebtoken mongoRegex db q authorization views :
  Search.searchUsersWith jsonwebtoken mongoRegex db q authorization
    = Json views →
  ∃ (matches : string → bool) flag,
    views = (λ iu : ObjectId * User,
               mkSummary iu.1 (u_username iu.2) (u_name iu.2)
                 (Some (followers iu.2)) (flag iu.1))
            <$> take 20
                  (filter (λ iu, matches (u_name iu.2) = true
                                 ∨ matches (u_username iu.2) = true)
                          (map_to_list (users db))) ∧
    flag = λ i,
      match decodeViewer (Some jsonwebtoken) authorization with
      | Some viewer =>
          match users db !! viewer with
          | Some currentUser => Some (bool_decide (i ∈ following currentUser))
          | None => None
          end
      | None => None
      end.
Proof.
  unfold Search.searchUsersWith, Search.jwt.
  destruct (Js.truthy q) as [query|]; [|done].
  destruct (mongoRegex query) as [matches|]; [|done].
  intros [= <-]. exists matches. eexists. split; [|reflexivity].
  destruct (decodeViewer _ _) as [viewer|]; [|done].
  by destruct (users db !! viewer).
Qed.

(** X29.  Whatever the query and whatever the regular-expression engine
    makes of it, a user search that succeeds answers with at most 20
    distinct stored users, each with its names and its [followers].  When
    the request carries a token that verifies to a stored user, each result
    is flagged by membership in that user's [following]; otherwise the
    results carry no flag. *)
Theorem searchUsers_sound (jsonwebtoken : JwtVerify)
    (mongoRegex : string → option (string → bool)) (db : Db)
    (q authorization : option string) (views : list UserSummary) :
  Search.searchUsersWith jsonwebtoken mongoRegex db q authorization
    = Json views →
  (length views ≤ 20)%nat ∧ NoDup (s_id <$> views) ∧
  Forall (λ s, ∃ w, users db !! s_id s = Some w ∧
                    s_username s = u_username w ∧ s_name s = u_name w ∧
                    s_followers s = Some (followers w) ∧
                    s_isFollowing s =
                      match decodeViewer (Some jsonwebtoken) authorization with
                      | Some viewer =>
                          match users db !! viewer with
                          | Some currentUser =>
                              Some (bool_decide (s_id s ∈ following currentUser))
                          | None => None
                          end
                      | None => None
                      end) views.
Proof.
  intros (matches & flag & -> & ->)%searchUsersWith_views. split_and!.
  - rewrite length_fmap, length_take. lia.
  - rewrite <- list_fmap_compose.
    change (s_id ∘ _) with (fst : ObjectId * User → ObjectId).
    eapply sublist_NoDup; [apply (NoDup_fst_map_to_list (users db))|].
    apply fmap_sublist. etrans; [apply sublist_take|]. apply sublist_filter.
  - apply Forall_forall. intros s ([i u] & -> & Hiu)%list_elem_of_fmap.
    eapply elem_of_sublist in Hiu; [|apply sublist_take].
    apply list_elem_of_filter in Hiu as [_ Hiu%elem_of_map_to_list].
    by exists u.
Qed.

(** X30.  For a query that is not empty and has no metacharacter, a user
    search returns only users whose name or username contains the query,
    case ignored, and when it returns fewer than 20 it returns every such
    stored user. *)
Theorem searchUsers_literal_query (jsonwebtoken : JwtVerify) (db : Db)
    (q : string) (authorization : option string) :
  q ≠ EmptyString → literal q →
  ∃ views,
    Search.searchUsers jsonwebtoken db (Some q) authorization
      = Some (Json views) ∧
    Forall (λ s, containsCI q (s_name s) ∨ containsCI q (s_username s))
           views ∧
    ((length views < 20)%nat →
     ∀ i u, users db !! i = Some u →
            containsCI q (u_name u) ∨ containsCI q (u_username u) →
            i ∈ s_id <$> views).
Proof.
  intros Hq Hlit.
  destruct (Search.searchUsers jsonwebtoken db (Some q) authorization)
    as [[views|]|] eqn:Hrun.
  - exists views. split; [done|].
    apply searchUsers_views in Hrun as (p & flag & -> & Hp & _).
    assert (Js.truthy (Some q) = Some q) as Htr by (by destruct q).
    rewrite Htr in Hp. simpl in Hp. rewrite (parse_literal _ Hlit) in Hp.
    injection Hp as <-.
    assert (∀ s, Regex.search (Regex.Lit <$> list_ascii_of_string q) s = true
                 ↔ containsCI q s) as Hmatch.
    { intros s. by rewrite search_literal, containsCI_isInfix. }
    split.
    + apply Forall_forall. intros s ([i u] & -> & Hiu)%list_elem_of_fmap.
      eapply elem_of_sublist in Hiu; [|apply sublist_take].
      apply list_elem_of_filter in Hiu as [Hm _]. simpl in *.
      by rewrite <- !Hmatch.
    + rewrite length_fmap. intros Hlen i u Hu Hm.
      rewrite take_ge by (rewrite length_take in Hlen; lia).
      rewrite <- list_fmap_compose. apply list_elem_of_fmap.
      exists (i, u). split; [done|]. apply list_elem_of_filter.
      split; [by rewrite !Hmatch | by apply elem_of_map_to_list].
  - exfalso. unfold Search.searchUsers in Hrun.
    assert (Js.truthy (Some q) = Some q) as Htr by (by destruct q).
    rewrite Htr in Hrun. rewrite (parse_literal _ Hlit) in Hrun. simpl in Hrun.
    discriminate.
  - exfalso. unfold Search.searchUsers in Hrun.
    assert (Js.truthy (Some q) = Some q) as Htr by (by destruct q).
    rewrite Htr in Hrun. by rewrite (parse_literal _ Hlit) in Hrun.
Qed.

End SearchUsers.

(** ** The further statements at the sample database *)

Section SampleMore.
Import Sample.

Lemma sample_literal_ali : literal "ali".
Proof.
  intros c Hc. simpl in Hc.
  repeat (apply elem_of_cons in Hc as [-> | Hc]);
    [..|by apply elem_of_nil in Hc]; vm_compute; set_solver.
Qed.

Lemma sample_threads_valid : contentValid (mkDb (users db) [hello; reply; nested]).
Proof.
  intros t Ht. simpl in Ht.
  repeat (apply elem_of_cons in Ht as [-> | Ht]);
    [..|by apply elem_of_nil in Ht]; simpl; split; (done || lia).
Qed.

Lemma sample_fresh_id : ∀ t, t ∈ tweets db → _id t ≠ 14.
Proof.
  intros t Ht. simpl in Ht.
  repeat (apply elem_of_cons in Ht as [-> | Ht]);
    [..|by apply elem_of_nil in Ht]; done.
Qed.

Lemma sample_no_tweet_99 : ∀ t, t ∈ tweets db → _id t ≠ 99.
Proof.
  intros t Ht. simpl in Ht.
  repeat (apply elem_of_cons in Ht as [-> | Ht]);
    [..|by apply elem_of_nil in Ht]; done.
Qed.

End SampleMore.

Lemma likeTweet_flips_actor_witness :
  Mongo.findById 10 (tweets Sample.db) = Some Sample.hello ∧
  ∃ t', Mongo.findById 10 (tweets (Tweets.likeTweet 140 Sample.db 1 10).1)
          = Some t' ∧ (1 ∈ likes t' ↔ 1 ∉ likes Sample.hello).
Proof.
  split; [reflexivity|].
  destruct (likeTweet_flips_actor 140 Sample.db 1 10 Sample.hello eq_refl)
    as (t' & Hfind & _ & _ & Hflip & _).
  exists t'. split; [exact Hfind | exact Hflip].
Defined.

Lemma missing_tweet_not_found_witness :
  (∀ t, t ∈ tweets Sample.db →
        Mongo.castId "000000000000000000000063" ≠ Some (_id t)) ∧
  Tweets.likeTweetRoute 140 Sample.db 1 "000000000000000000000063"
    = (Sample.db, Fail 404 "Tweet not found") ∧
  (∀ t, t ∈ tweets Sample.db → Mongo.castId "user" ≠ Some (_id t)) ∧
  Tweets.likeTweetRoute 140 Sample.db 1 "user" = (Sample.db, server_error).
Proof.
  assert (∀ t, t ∈ tweets Sample.db →
               Mongo.castId "000000000000000000000063" ≠ Some (_id t)) as H99.
  { intros t Ht [= Hid]. by apply (sample_no_tweet_99 t Ht). }
  assert (∀ t, t ∈ tweets Sample.db → Mongo.castId "user" ≠ Some (_id t))
    as Huser by (intros t _; done).
  split; [exact H99|].
  split; [apply (missing_tweet_not_found Sample.db 1 14 140
                   "000000000000000000000063" None H99)|].
  split; [exact Huser|].
  apply (missing_tweet_not_found Sample.db 1 14 140 "user" None Huser).
Defined.

Lemma createTweet_stored_witness :
  let t := mkTweet 14 1 "good morning" (Some EmptyString) [] [] None
                   (Some 10) 140 140 in
  Tweets.createTweet (λ _, None) 14 140 Sample.db 1
      (Some " good morning ") None (Some 10)
    = (mkDb (users Sample.db) (tweets Sample.db ++ [t]),
       Json (mkView t (Some false) (Some false))) ∧
  content t ≠ EmptyString ∧ (String.length (content t) ≤ 280)%nat.
Proof.
  intros t. split; [reflexivity|].
  destruct (createTweet_stored (λ _, None) 14 140 Sample.db
              (mkDb (users Sample.db) (tweets Sample.db ++ [t])) 1
              (Some " good morning ") None (Some 10)
              (mkView t (Some false) (Some false)) eq_refl)
    as (_ & _ & Hne & Hlen & _).
  split; [exact Hne | exact Hlen].
Defined.

Lemma createTweet_accepts_witness :
  Js.trim " good morning " ≠ EmptyString ∧
  (String.length (Js.trim " good morning ") ≤ 280)%nat ∧
  (∀ i, Some 10 = Some i → is_Some (Mongo.findById i (tweets Sample.db))) ∧
  Tweets.createTweet (λ _, None) 14 140 Sample.db 1
      (Some " good morning ") None (Some 10)
    = (mkDb (users Sample.db)
         (tweets Sample.db ++
            [mkTweet 14 1 (Js.trim " good morning ") (Some EmptyString)
                     [] [] None (Some 10) 140 140]),
       Json (mkView (mkTweet 14 1 (Js.trim " good morning ")
                       (Some EmptyString) [] [] None (Some 10) 140 140)
                    (Some false) (Some false))).
Proof.
  assert (Js.trim " good morning " ≠ EmptyString) as Hne by done.
  assert (String.length (Js.trim " good morning ") ≤ 280)%nat as Hlen
    by (vm_compute; lia).
  assert (∀ i, Some 10 = Some i →
               is_Some (Mongo.findById i (tweets Sample.db))) as Hparent
    by (intros i [= <-]; by eexists).
  split; [exact Hne|]. split; [exact Hlen|]. split; [exact Hparent|].
  apply (createTweet_accepts (λ _, None) 14 140 Sample.db 1 " good morning "
           (Some 10) Hne Hlen Hparent).
Defined.

Lemma tweet_handlers_keep_content_valid_witness :
  contentValid (mkDb (users Sample.db)
                  [Sample.hello; Sample.reply; Sample.nested]) ∧
  contentValid
    (Tweets.deleteTweet
       (mkDb (users Sample.db) [Sample.hello; Sample.reply; Sample.nested])
       1 10).1.
Proof.
  split; [apply sample_threads_valid|].
  apply (tweet_handlers_keep_content_valid (λ _, None) 14 140
           (mkDb (users Sample.db) [Sample.hello; Sample.reply; Sample.nested])
           1 10 None None None sample_threads_valid).
Defined.

Lemma tweet_handlers_keep_ids_unique_witness :
  NoDup (_id <$> tweets Sample.db) ∧
  (∀ t, t ∈ tweets Sample.db → _id t ≠ 14) ∧
  NoDup (_id <$> tweets
           (Tweets.createTweet (λ _, None) 14 140 Sample.db 1
              (Some "good morning") None None).1).
Proof.
  split; [apply sample_ids_unique|]. split; [apply sample_fresh_id|].
  apply (tweet_handlers_keep_ids_unique (λ _, None) 14 140 Sample.db 1 10
           (Some "good morning") None None
           sample_ids_unique sample_fresh_id).
Defined.


Lemma deleted_tweet_is_gone_witness :
  NoDup (_id <$> tweets Sample.db) ∧ Sample.hello ∈ tweets Sample.db ∧
  user Sample.hello = 1 ∧
  Tweets.getTweet (Tweets.deleteTweet Sample.db 1 10).1 10 None
    = Fail 404 "Tweet not found" ∧
  Tweets.getComments (Tweets.deleteTweet Sample.db 1 10).1 10 None = Json [].
Proof.
  split; [apply sample_ids_unique|]. split; [by left|]. split; [reflexivity|].
  apply (deleted_tweet_is_gone Sample.db 1 Sample.hello None);
    [apply sample_ids_unique | by left | reflexivity].
Defined.

Lemma like_shows_in_timeline_witness :
  NoDup (_id <$> tweets Sample.db) ∧
  Mongo.findById 10 (tweets Sample.db) = Some Sample.hello ∧
  Tweets.getTimeline (Tweets.likeTweet 140 Sample.db 2 10).1 2 Sample.bob None None
    = Json (withInteraction 2 <$>
              [Sample.wrapper; mkTweet 10 1 "hello" None [] [2] None None 100 140]) ∧
  Forall (λ v, _id (v_tweet v) = 10 →
               isLiked v = Some (bool_decide (2 ∉ likes Sample.hello)))
         (withInteraction 2 <$>
            [Sample.wrapper; mkTweet 10 1 "hello" None [] [2] None None 100 140]).
Proof.
  split; [apply sample_ids_unique|]. split; [reflexivity|].
  split; [reflexivity|].
  apply (like_shows_in_timeline 140 Sample.db 2 10 Sample.hello Sample.bob
           None None _ sample_ids_unique eq_refl eq_refl).
Defined.

Lemma followUser_effect_witness :
  "000000000000000000000001" ≠ Mongo.idString 2 ∧
  Mongo.castId "000000000000000000000001" = Some 1 ∧
  users Sample.db !! 2 = Some Sample.bob ∧
  users Sample.db !! 1 = Some Sample.alice ∧
  (Users.followUser Sample.db 2 "000000000000000000000001").2
    = Json (if decide ("000000000000000000000001"
                       ∈ Mongo.idString <$> following Sample.bob)
            then "User unfollowed" else "User followed").
Proof.
  assert ("000000000000000000000001" ≠ Mongo.idString 2) as Hne
    by (vm_compute; discriminate).
  split; [exact Hne|]. split; [reflexivity|]. split; [reflexivity|].
  split; [reflexivity|].
  destruct (followUser_effect Sample.db 2 "000000000000000000000001" 1
              Sample.bob Sample.alice Hne eq_refl eq_refl eq_refl)
    as (ua' & ub' & _ & _ & _ & _ & Hres).
  exact Hres.
Defined.

Lemma follow_shows_in_lists_witness :
  "00000000000000000000000B" ≠ Mongo.idString 10 ∧
  Mongo.castId "00000000000000000000000B" = Some 11 ∧
  users Sample.followDb !! 10 = Some Sample.ann ∧
  users Sample.followDb !! 11 = Some Sample.ben ∧
  ∃ lf lg,
    Users.getFollowers
      (Users.followUser Sample.followDb 10 "00000000000000000000000B").1 11
      = Json lf ∧
    Users.getFollowing
      (Users.followUser Sample.followDb 10 "00000000000000000000000B").1 10
      = Json lg ∧
    (10 ∈ Users.s_id <$> lf ↔
     "00000000000000000000000B" ∉ Mongo.idString <$> following Sample.ann) ∧
    (11 ∈ Users.s_id <$> lg ↔
     "00000000000000000000000B" ∉ Mongo.idString <$> following Sample.ann).
Proof.
  assert ("00000000000000000000000B" ≠ Mongo.idString 10) as Hne
    by (vm_compute; discriminate).
  split; [exact Hne|]. split; [reflexivity|]. split; [reflexivity|].
  split; [reflexivity|].
  apply (follow_shows_in_lists Sample.followDb 10 "00000000000000000000000B"
           11 Sample.ann Sample.ben Hne eq_refl eq_refl eq_refl).
Defined.

Lemma searchTweets_sound_witness :
  Search.searchTweetsWith Sample.verify fragmentRegex Sample.db
      (Some "hello") None
    = Json [plainView Sample.hello] ∧
  (length [plainView Sample.hello] ≤ 20)%nat.
Proof.
  split; [reflexivity|].
  destruct (searchTweets_sound Sample.verify fragmentRegex Sample.db
              (Some "hello") None [plainView Sample.hello] eq_refl)
    as (Hlen & _).
  exact Hlen.
Defined.

Lemma searchTweets_bearer_flags_witness :
  Sample.verify "bob-token" = Some 2 ∧
  Search.searchTweetsWith Sample.verify fragmentRegex Sample.db (Some "hello")
      (Some ("Bearer " +:+ "bob-token"))
    = Json [mkView Sample.hello (Some true) (Some true)] ∧
  Forall (λ v, isLiked v = Some (bool_decide (2 ∈ likes (v_tweet v))) ∧
               isRetweeted v = Some (bool_decide (2 ∈ retweets (v_tweet v))))
         [mkView Sample.hello (Some true) (Some true)].
Proof.
  split; [reflexivity|]. split; [reflexivity|].
  apply (searchTweets_bearer_flags Sample.verify fragmentRegex Sample.db
           (Some "hello") "bob-token" 2 _ eq_refl eq_refl).
Defined.

Lemma searchUsers_sound_witness :
  Search.searchUsersWith Sample.verify fragmentRegex Sample.db (Some "ali")
      (Some "Bearer bob-token")
    = Json [Users.mkSummary 1 "alice" "Alice" (Some [2]) (Some true)] ∧
  (length [Users.mkSummary 1%N "alice" "Alice" (Some [2%N]) (Some true)]
     ≤ 20)%nat.
Proof.
  split; [vm_compute; reflexivity|].
  destruct (searchUsers_sound Sample.verify fragmentRegex Sample.db
              (Some "ali") (Some "Bearer bob-token")
              [Users.mkSummary 1 "alice" "Alice" (Some [2]) (Some true)]
              ltac:(vm_compute; reflexivity)) as (Hlen & _).
  exact Hlen.
Defined.

Lemma searchUsers_literal_query_witness :
  "ali" ≠ EmptyString ∧ literal "ali" ∧
  ∃ views,
    Search.searchUsers Sample.verify Sample.db (Some "ali") None
      = Some (Json views) ∧
    Forall (λ s, containsCI "ali" (Users.s_name s)
                 ∨ containsCI "ali" (Users.s_username s)) views.
Proof.
  split; [done|]. split; [apply sample_literal_ali|].
  destruct (searchUsers_literal_query Sample.verify Sample.db "ali" None
              ltac:(done) sample_literal_ali) as (views & Hrun & Hall & _).
  exists views. split; [exact Hrun | exact Hall].
Defined.
